(** * pass-to-keepassxc: a shallow embedding of [pass-to-keepassxc.py]

    The script walks a [pass] password store, decrypts every file with
    [gpg], parses the decrypted text with [parse_pass_format], builds one
    [KeepassXCEntry] per file and one group per top-level child, and prints
    the resulting [KeepassXCDump] as XML.

    Python values are modelled as follows.
    - [str] is a list of Unicode code points ([N]); [bytes] is [list byte].
    - [None] or a string is [option str].
    - An [xml.etree.ElementTree.Element] is a finite tree ([Element]); the
      in-place updates of the script become functional updates of that tree.
    - Exceptions are the [Raise] results of a small error monad. *)

From Stdlib Require Import String Ascii.
From Stdlib Require Import Strings.Byte.
From Stdlib Require Import List NArith ZArith Lia Bool.
Import ListNotations.

Set Warnings "-register-all".

(** ** Python strings *)

Definition char := N.
Definition str := list char.

(** An ASCII literal as a Python string. *)
Definition lit (s : string) : str :=
  map N_of_ascii (list_ascii_of_string s).

Definition NL : char := 10%N.
Definition DQUOTE : char := 34%N.
Definition APOS : char := 39%N.
Definition AMP : char := 38%N.
Definition LT : char := 60%N.
Definition GT : char := 62%N.
Definition DOT : char := 46%N.

Module Py.

(** [a == b] on strings. *)
Fixpoint eqb (a b : str) : bool :=
  match a, b with
  | [], [] => true
  | c :: a', d :: b' => (c =? d)%N && eqb a' b'
  | _, _ => false
  end.

(** [s.split(sep)] for a one-character separator.  The result is never
    the empty list. *)
Fixpoint split (sep : char) (s : str) : list str :=
  match s with
  | [] => [[]]
  | c :: s' =>
      if (c =? sep)%N then [] :: split sep s'
      else match split sep s' with
           | w :: ws => (c :: w) :: ws
           | [] => [[c]]
           end
  end.

(** [sep.join(l)]. *)
Fixpoint join (sep : str) (l : list str) : str :=
  match l with
  | [] => []
  | x :: xs =>
      match xs with
      | [] => x
      | _ :: _ => x ++ sep ++ join sep xs
      end
  end.

(** [s.startswith(p)]. *)
Fixpoint startswith (s p : str) : bool :=
  match p with
  | [] => true
  | c :: p' =>
      match s with
      | [] => false
      | d :: s' => (d =? c)%N && startswith s' p'
      end
  end.

(** [s.endswith(p)]. *)
Definition endswith (s p : str) : bool :=
  startswith (rev s) (rev p).

(** [s.removeprefix(p)]. *)
Definition removeprefix (s p : str) : str :=
  if startswith s p then skipn (length p) s else s.

(** [s.removesuffix(p)]: the suffix is removed only when it is not empty
    and [s] ends with it. *)
Definition removesuffix (s p : str) : str :=
  match p with
  | [] => s
  | _ :: _ => if endswith s p then firstn (length s - length p) s else s
  end.

(** [c.isspace()]: the code points CPython's [_PyUnicode_IsWhitespace]
    accepts. *)
Definition isspace (c : char) : bool :=
  ((9 <=? c) && (c <=? 13) || (28 <=? c) && (c <=? 32)
   || (c =? 133) || (c =? 160) || (c =? 5760)
   || (8192 <=? c) && (c <=? 8202)
   || (c =? 8232) || (c =? 8233) || (c =? 8239) || (c =? 8287)
   || (c =? 12288))%N.

Fixpoint lstrip (s : str) : str :=
  match s with
  | [] => []
  | c :: s' => if isspace c then lstrip s' else s
  end.

Definition rstrip (s : str) : str := rev (lstrip (rev s)).

(** [s.strip()]. *)
Definition strip (s : str) : str := rstrip (lstrip s).

(** [l.remove(x)]: drops the first element equal to [x].  Python raises
    [ValueError] when there is none; the script only removes an element it
    has just found in the list ([remove_found] below), so the list is
    returned unchanged in that case. *)
Fixpoint remove (x : str) (l : list str) : list str :=
  match l with
  | [] => []
  | y :: l' => if eqb y x then l' else y :: remove x l'
  end.

(** [a or b] where [a] is [None] or a string: [a] when it is a non-empty
    string, [b] otherwise. *)
Definition or_ (a : option str) (b : str) : str :=
  match a with
  | Some (c :: a') => c :: a'
  | Some [] | None => b
  end.

End Py.

(** ** The record parser *)

Definition OTPAUTH : str := lit "otpauth://".
Definition LOGIN : str := lit "login:".
Definition URL_ : str := lit "url:".

(** The five values [parse_pass_format] returns, in its order. *)
Record parsed := mkParsed {
  p_password : str;
  p_notes : str;
  p_totp : option str;
  p_username : option str;
  p_url : option str
}.

(** [next((x for x in it if x.startswith(m)), None)]. *)
Definition first_with (m : str) (it : list str) : option str :=
  find (fun x => Py.startswith x m) it.

Definition parse_pass_format (src : str) : parsed :=
  let it := Py.split NL src in
  let password := hd [] it in
  let totp := first_with OTPAUTH it in
  let it := match totp with Some t => Py.remove t it | None => it end in
  let username := first_with LOGIN it in
  let it := match username with Some u => Py.remove u it | None => it end in
  let username :=
    option_map (fun u => Py.strip (Py.removeprefix u LOGIN)) username in
  let url := first_with URL_ it in
  let it := match url with Some u => Py.remove u it | None => it end in
  let url := option_map (fun u => Py.strip (Py.removeprefix u URL_)) url in
  let notes := Py.join [NL] (tl it) in
  mkParsed password notes totp username url.

(** ** xml.etree.ElementTree *)

(** An element: tag, attributes in insertion order, [text] ([None] or a
    string) and children.  The script never sets [tail]. *)
Inductive Element :=
  Elem (tag : str) (attrib : list (str * str)) (text : option str)
       (children : list Element).

Definition tag (e : Element) : str := let 'Elem t _ _ _ := e in t.
Definition attrib (e : Element) : list (str * str) :=
  let 'Elem _ a _ _ := e in a.
Definition text (e : Element) : option str := let 'Elem _ _ x _ := e in x.
Definition children (e : Element) : list Element :=
  let 'Elem _ _ _ cs := e in cs.

Module ET.

(** A reference to an element inside a tree is the list of child indices
    that leads to it from the top of the tree; the script's variables that
    hold elements ([string], [key], [self.root], ...) hold such paths, and
    a mutation through a variable updates the one tree it points into.  The
    script only ever appends children, so a path stays valid once made. *)
Definition ref := list nat.

(** The program state of a builder method: the tree it mutates. *)
Definition M (A : Type) : Type := Element -> A * Element.

Definition ret {A} (a : A) : M A := fun t => (a, t).
Definition bind {A B} (m : M A) (k : A -> M B) : M B :=
  fun t => let '(a, t') := m t in k a t'.
Definition exec {A} (m : M A) (t : Element) : Element := snd (m t).

(** Apply [f] to the [i]-th element of [l]; nothing happens out of
    range. *)
Fixpoint at_index {A} (i : nat) (f : A -> A) (l : list A) : list A :=
  match l with
  | [] => []
  | x :: l' =>
      match i with
      | O => f x :: l'
      | S i' => x :: at_index i' f l'
      end
  end.

(** Apply [f] to the element [r] refers to. *)
Fixpoint at_ref (r : ref) (f : Element -> Element) (t : Element) : Element :=
  match r with
  | [] => f t
  | i :: r' =>
      let 'Elem tg a x cs := t in Elem tg a x (at_index i (at_ref r' f) cs)
  end.

(** The element [r] refers to. *)
Fixpoint deref (r : ref) (t : Element) : option Element :=
  match r with
  | [] => Some t
  | i :: r' =>
      match nth_error (children t) i with
      | Some c => deref r' c
      | None => None
      end
  end.

(** [parent.append(child)]. *)
Definition append (child : Element) (parent : Element) : Element :=
  let 'Elem tg a x cs := parent in Elem tg a x (cs ++ [child]).

(** [parent.extend(elements)]. *)
Definition extend_ (elements : list Element) (parent : Element) : Element :=
  let 'Elem tg a x cs := parent in Elem tg a x (cs ++ elements).

(** [ET.SubElement(parent, tag)]: a new element appended to [parent]; the
    result refers to it. *)
Definition SubElement (parent : ref) (tg : str) : M ref :=
  fun t =>
    let n := match deref parent t with
             | Some p => List.length (children p)
             | None => O
             end in
    (parent ++ [n], at_ref parent (append (Elem tg [] None [])) t).

(** [elem.text = v]. *)
Definition set_text (elem : ref) (v : option str) : M unit :=
  fun t => (tt, at_ref elem (fun e => let 'Elem tg a _ cs := e in
                                      Elem tg a v cs) t).

(** [d[k] = v] on a dict kept in insertion order. *)
Fixpoint dict_set (k v : str) (d : list (str * str)) : list (str * str) :=
  match d with
  | [] => [(k, v)]
  | (k', v') :: d' =>
      if Py.eqb k' k then (k', v) :: d' else (k', v') :: dict_set k v d'
  end.

(** [elem.set(k, v)]. *)
Definition set (elem : ref) (k v : str) : M unit :=
  fun t => (tt, at_ref elem (fun e => let 'Elem tg a x cs := e in
                                      Elem tg (dict_set k v a) x cs) t).

(** [parent.extend(elements)] through a reference. *)
Definition extend (parent : ref) (elements : list Element) : M unit :=
  fun t => (tt, at_ref parent (extend_ elements) t).

(** [s.replace(old, new)] for a one-character [old]. *)
Definition replace (old : char) (new : str) (s : str) : str :=
  flat_map (fun c => if (c =? old)%N then new else [c]) s.

(** [_escape_cdata]: the three replacements, in the library's order.  (The
    library guards each with an [in] test, which changes nothing.) *)
Definition _escape_cdata (s : str) : str :=
  let s := replace AMP (lit "&amp;") s in
  let s := replace LT (lit "&lt;") s in
  let s := replace GT (lit "&gt;") s in
  s.

(** [_escape_attrib]. *)
Definition _escape_attrib (s : str) : str :=
  let s := replace AMP (lit "&amp;") s in
  let s := replace LT (lit "&lt;") s in
  let s := replace GT (lit "&gt;") s in
  let s := replace DQUOTE (lit "&quot;") s in
  let s := replace 13%N (lit "&#13;") s in
  let s := replace NL (lit "&#10;") s in
  let s := replace 9%N (lit "&#09;") s in
  s.

(** Truth value of [text]: [None] and the empty string are false. *)
Definition truthy (x : option str) : bool :=
  match x with
  | Some (_ :: _) => true
  | _ => false
  end.

Definition write_attrib (kv : str * str) : str :=
  lit " " ++ fst kv ++ lit "=" ++ [DQUOTE] ++ _escape_attrib (snd kv)
    ++ [DQUOTE].

(** [_serialize_xml] with [short_empty_elements=True], for tags and
    attribute names without a namespace. *)
Fixpoint _serialize_xml (e : Element) : str :=
  let 'Elem tg a x cs := e in
  lit "<" ++ tg ++ flat_map write_attrib a
    ++ (if truthy x || negb (Nat.eqb (List.length cs) 0) then
          lit ">"
            ++ (match x with Some s => _escape_cdata s | None => [] end)
            ++ (fix each (l : list Element) : str :=
                  match l with
                  | [] => []
                  | c :: l' => _serialize_xml c ++ each l'
                  end) cs
            ++ lit "</" ++ tg ++ lit ">"
        else lit " />").

(** [ET.tostring(element, encoding='unicode')]. *)
Definition tostring (e : Element) : str := _serialize_xml e.

(** [ET.Element(tag)]. *)
Definition Element (tg : str) : Element := Elem tg [] None [].

End ET.

Declare Scope et_scope.
Delimit Scope et_scope with et.
Notation "x <- m ;; k" := (ET.bind m (fun x => k))
  (at level 61, m at next level, right associativity) : et_scope.
Notation "m ;; k" := (ET.bind m (fun _ => k))
  (at level 61, right associativity) : et_scope.

(** ** KeepassXCEntry *)

Module KeepassXCEntry.

(** An entry object; [root] is its [Entry] element. *)
Record t := mk { root : Element }.

(** Within a method, [self.root] is the top of the entry's tree. *)
Definition self_root : ET.ref := [].

Definition add_string_field (k : str) (v : option str) : ET.M unit :=
  (string <- ET.SubElement self_root (lit "String") ;;
   key <- ET.SubElement string (lit "Key") ;;
   ET.set_text key (Some k) ;;
   value <- ET.SubElement string (lit "Value") ;;
   ET.set_text value v ;;
   ET.set value (lit "ProtectInMemory") (lit "True"))%et.

Definition add_auto_type : ET.M unit :=
  (autotype <- ET.SubElement self_root (lit "AutoType") ;;
   enabled <- ET.SubElement autotype (lit "Enabled") ;;
   ET.set_text enabled (Some (lit "True")) ;;
   dto <- ET.SubElement autotype (lit "DataTransferObfuscation") ;;
   ET.set_text dto (Some (lit "0")) ;;
   ds <- ET.SubElement autotype (lit "DefaultSequence") ;;
   ET.ret tt)%et.

(** [KeepassXCEntry(username, password, url, title, notes, totp)]; every
    argument is [None] or a string. *)
Definition __init__ (username password url title notes totp : option str)
  : t :=
  mk (ET.exec
        (add_string_field (lit "Notes") notes ;;
         add_string_field (lit "UserName") username ;;
         add_string_field (lit "Password") password ;;
         add_string_field (lit "URL") url ;;
         add_string_field (lit "Title") title ;;
         add_string_field (lit "otp") totp ;;
         add_auto_type)%et
        (ET.Element (lit "Entry"))).

End KeepassXCEntry.

(** ** KeepassXCDump *)

Module KeepassXCDump.

(** [KeePassFile] is the whole tree; [root] refers to the group named
    [Root] inside it. *)
Record t := mk { KeePassFile : Element; root : ET.ref }.

Definition __init__ : t :=
  let '(r, tree) :=
    (Root <- ET.SubElement [] (lit "Root") ;;
     self_root <- ET.SubElement Root (lit "Group") ;;
     root_name <- ET.SubElement self_root (lit "Name") ;;
     ET.set_text root_name (Some (lit "Root")) ;;
     ET.ret self_root)%et (ET.Element (lit "KeePassFile")) in
  mk tree r.

(** [extend] attaches the entries' own elements to the group; the script
    does not touch an entry after it has been attached, so the group holds
    the trees as they are at the call. *)
Definition add_group (name : str) (entries : list KeepassXCEntry.t)
  (self : t) : t :=
  mk (ET.exec
        (group_root <- ET.SubElement (root self) (lit "Group") ;;
         group_name <- ET.SubElement group_root (lit "Name") ;;
         ET.set_text group_name (Some name) ;;
         ET.extend group_root (map KeepassXCEntry.root entries))%et
        (KeePassFile self))
     (root self).

Definition __str__ (self : t) : str := ET.tostring (KeePassFile self).

End KeepassXCDump.

(** ** Exceptions *)

Inductive exn :=
| IndexError
| UnicodeDecodeError
| FileNotFoundError
| NotADirectoryError.

Inductive result (A : Type) :=
| Ok (a : A)
| Raise (e : exn).
Arguments Ok {A} a.
Arguments Raise {A} e.

Definition rbind {A B} (m : result A) (k : A -> result B) : result B :=
  match m with
  | Ok a => k a
  | Raise e => Raise e
  end.

Declare Scope result_scope.
Delimit Scope result_scope with res.
Notation "x <- m ;; k" := (rbind m (fun x => k))
  (at level 61, m at next level, right associativity) : result_scope.

(** ** Decoding UTF-8 *)

Module Utf8.

(** A continuation byte. *)
Definition cont (b : N) : bool := ((128 <=? b) && (b <=? 191))%N.

Definition between (lo hi b : N) : bool := ((lo <=? b) && (b <=? hi))%N.

(** [bytes.decode('utf-8')] in strict mode: [None] stands for
    [UnicodeDecodeError].  Overlong forms, surrogates and code points
    above U+10FFFF are rejected. *)
Fixpoint decode (bs : list byte) : option str :=
  match bs with
  | [] => Some []
  | b0 :: r0 =>
      let n0 := Byte.to_N b0 in
      if (n0 <? 128)%N then option_map (cons n0) (decode r0)
      else if between 194 223 n0 then
        match r0 with
        | b1 :: r1 =>
            let n1 := Byte.to_N b1 in
            if cont n1 then
              option_map (cons ((n0 - 192) * 64 + (n1 - 128))%N) (decode r1)
            else None
        | _ => None
        end
      else if between 224 239 n0 then
        match r0 with
        | b1 :: b2 :: r2 =>
            let n1 := Byte.to_N b1 in
            let n2 := Byte.to_N b2 in
            let lo := if (n0 =? 224)%N then 160%N else 128%N in
            let hi := if (n0 =? 237)%N then 159%N else 191%N in
            if between lo hi n1 && cont n2 then
              option_map
                (cons ((n0 - 224) * 4096 + (n1 - 128) * 64 + (n2 - 128))%N)
                (decode r2)
            else None
        | _ => None
        end
      else if between 240 244 n0 then
        match r0 with
        | b1 :: b2 :: b3 :: r3 =>
            let n1 := Byte.to_N b1 in
            let n2 := Byte.to_N b2 in
            let n3 := Byte.to_N b3 in
            let lo := if (n0 =? 240)%N then 144%N else 128%N in
            let hi := if (n0 =? 244)%N then 143%N else 191%N in
            if between lo hi n1 && cont n2 && cont n3 then
              option_map
                (cons ((n0 - 240) * 262144 + (n1 - 128) * 4096
                       + (n2 - 128) * 64 + (n3 - 128))%N)
                (decode r3)
            else None
        | _ => None
        end
      else None
  end.

End Utf8.

(** ** The password store and the decryption subprocess *)

(** What [subprocess.run([...], capture_output=True)] returns. *)
Record CompletedProcess := mkCompleted {
  returncode : Z;
  stdout : list byte
}.

(** A regular file of the store: its name and what running [gpg --decrypt]
    on it gives. *)
Record file := mkFile {
  f_name : str;
  f_gpg : CompletedProcess
}.

(** A node of the store: a directory with its entries in [iterdir] order, a
    regular file, or something that is neither ([is_dir] and [is_file] both
    false). *)
Inductive node :=
| Dir (name : str) (entries : list node)
| File (f : file)
| Special (name : str).

Definition node_name (n : node) : str :=
  match n with
  | Dir name _ => name
  | File f => f_name f
  | Special name => name
  end.

(** A path [find_files] yields: the file, and [entry.parent.name]. *)
Record Path := mkPath {
  parent_name : str;
  path_file : file
}.

Definition GPG : str := lit ".gpg".

(** [x.name[0] != '.']; indexing the empty string raises [IndexError]. *)
Definition not_hidden (name : str) : result bool :=
  match name with
  | [] => Raise IndexError
  | c :: _ => Ok (negb (c =? DOT)%N)
  end.

(** [find_files(directory)], run to the end: the paths it yields in order,
    or the exception that stops the iteration.  [iterdir] on something that
    is not a directory raises [NotADirectoryError]; the script only calls
    [find_files] on directories. *)
Fixpoint find_files (directory : node) : result (list Path) :=
  match directory with
  | Dir dname entries =>
      (fix each (l : list node) : result (list Path) :=
         match l with
         | [] => Ok []
         | x :: l' =>
             (v <- not_hidden (node_name x) ;;
              if v : bool then
                match x with
                | Dir _ _ =>
                    a <- find_files x ;; b <- each l' ;; Ok (a ++ b)
                | File f => b <- each l' ;; Ok (mkPath dname f :: b)
                | Special _ => each l'
                end
              else each l')%res
         end) entries
  | File _ | Special _ => Raise NotADirectoryError
  end.

(** [decrypt(gpg_encrypted_file)]: the standard output of the subprocess,
    decoded. *)
Definition decrypt (gpg_encrypted_file : file) : result str :=
  let out := f_gpg gpg_encrypted_file in
  match Utf8.decode (stdout out) with
  | Some s => Ok s
  | None => Raise UnicodeDecodeError
  end.

(** ** The main program *)

(** The body of the inner loop of the directory branch: one file of a
    group, with the entries collected so far. *)
Definition dir_entry (keepassxc_entries : list KeepassXCEntry.t)
  (entry : Path) : result (list KeepassXCEntry.t) :=
  let parent_name := parent_name entry in
  let username := Py.removesuffix (f_name (path_file entry)) GPG in
  match decrypt (path_file entry) with
  | Raise UnicodeDecodeError => Ok keepassxc_entries
  | Raise e => Raise e
  | Ok file_contents =>
      let r := parse_pass_format file_contents in
      let url := Py.or_ (p_url r) parent_name in
      Ok (keepassxc_entries ++
          [KeepassXCEntry.__init__ (Some username) (Some (p_password r))
             (Some url) (Some username) (Some (p_notes r)) (p_totp r)])
  end.

(** The inner loop of the directory branch. *)
Fixpoint dir_entries (files : list Path)
  (keepassxc_entries : list KeepassXCEntry.t)
  : result (list KeepassXCEntry.t) :=
  match files with
  | [] => Ok keepassxc_entries
  | entry :: files' =>
      (acc <- dir_entry keepassxc_entries entry ;; dir_entries files' acc)%res
  end.

(** The loop over the children of the store directory. *)
Fixpoint main_loop (groups : list node) (out : KeepassXCDump.t)
  : result KeepassXCDump.t :=
  match groups with
  | [] => Ok out
  | group :: groups' =>
      (v <- not_hidden (node_name group) ;;
       if v : bool then
         match group with
         | Dir gname _ =>
             files <- find_files group ;;
             keepassxc_entries <- dir_entries files [] ;;
             main_loop groups'
               (KeepassXCDump.add_group (Py.removesuffix gname GPG)
                  keepassxc_entries out)
         | File f =>
             let filename := Py.removesuffix (f_name f) GPG in
             match decrypt f with
             | Raise UnicodeDecodeError => main_loop groups' out
             | Raise e => Raise e
             | Ok file_contents =>
                 let r := parse_pass_format file_contents in
                 let username := p_username r in
                 let url := Py.or_ (p_url r) filename in
                 let keepassxc_entries :=
                   [] ++ [KeepassXCEntry.__init__ username
                            (Some (p_password r)) (Some url) username
                            (Some (p_notes r)) (p_totp r)] in
                 main_loop groups'
                   (KeepassXCDump.add_group (Py.removesuffix (f_name f) GPG)
                      keepassxc_entries out)
             end
         | Special _ => main_loop groups' out
         end
       else main_loop groups' out)%res
  end.

(** How a run ends: [sys.exit(code)] after printing [printed] on standard
    output, or an exception nobody catches. *)
Inductive outcome :=
| Exit (code : Z) (printed : str)
| Uncaught (e : exn).

(** [Path(p).iterdir()] for the argument of the program; [fs] says what is
    at a path. *)
Definition iterdir (fs : str -> option node) (p : str)
  : result (list node) :=
  match fs p with
  | None => Raise FileNotFoundError
  | Some (Dir _ entries) => Ok entries
  | Some (File _) | Some (Special _) => Raise NotADirectoryError
  end.

(** The guard of the main program: [len(sys.argv) < 1]. *)
Definition too_few_arguments (argv : list str) : bool :=
  Nat.ltb (List.length argv) 1.

Definition main (argv : list str) (fs : str -> option node) : outcome :=
  if too_few_arguments argv then Exit 1 []
  else
    match nth_error argv 1 with
    | None => Uncaught IndexError
    | Some password_store_dir =>
        let out := KeepassXCDump.__init__ in
        match (groups <- iterdir fs password_store_dir ;;
               main_loop groups out)%res with
        | Raise e => Uncaught e
        | Ok out => Exit 0 (KeepassXCDump.__str__ out ++ [NL])
        end
    end.

(** ** The record parser as the specification words it

    The first line is the password; the marker scan looks at the remaining
    lines only; the notes are the remaining lines no marker has taken. *)
Definition parse_remaining_lines (src : str) : parsed :=
  let it := Py.split NL src in
  let password := hd [] it in
  let pool := tl it in
  let totp := first_with OTPAUTH pool in
  let pool := match totp with Some t => Py.remove t pool | None => pool end in
  let username := first_with LOGIN pool in
  let pool :=
    match username with Some u => Py.remove u pool | None => pool end in
  let username :=
    option_map (fun u => Py.strip (Py.removeprefix u LOGIN)) username in
  let url := first_with URL_ pool in
  let pool := match url with Some u => Py.remove u pool | None => pool end in
  let url := option_map (fun u => Py.strip (Py.removeprefix u URL_)) url in
  mkParsed password (Py.join [NL] pool) totp username url.

(** Whether a line starts with one of the three markers. *)
Definition is_marker_line (line : str) : bool :=
  Py.startswith line OTPAUTH || Py.startswith line LOGIN
  || Py.startswith line URL_.

(** ** Shapes and observations used in the statements *)

(** The element [add_string_field k v] appends. *)
Definition String_ (k : str) (v : option str) : Element :=
  Elem (lit "String") [] None
    [Elem (lit "Key") [] (Some k) [];
     Elem (lit "Value") [(lit "ProtectInMemory", lit "True")] v []].

(** The element [add_auto_type] appends. *)
Definition AutoType_ : Element :=
  Elem (lit "AutoType") [] None
    [Elem (lit "Enabled") [] (Some (lit "True")) [];
     Elem (lit "DataTransferObfuscation") [] (Some (lit "0")) [];
     Elem (lit "DefaultSequence") [] None []].

(** The element [add_group name entries] appends. *)
Definition Group_ (name : str) (entries : list Element) : Element :=
  Elem (lit "Group") [] None (Elem (lit "Name") [] (Some name) [] :: entries).

(** A dump whose root group has the children [cs]. *)
Definition Dump_ (cs : list Element) : KeepassXCDump.t :=
  KeepassXCDump.mk
    (Elem (lit "KeePassFile") [] None
       [Elem (lit "Root") [] None [Elem (lit "Group") [] None cs]])
    [0; 0].

(** [elem.find(tg)]: the first child with that tag. *)
Definition find_child (tg : str) (e : Element) : option Element :=
  find (fun c => Py.eqb (tag c) tg) (children e).

(** [elem.findall(tg)]: the children with that tag, in order. *)
Definition findall (tg : str) (e : Element) : list Element :=
  filter (fun c => Py.eqb (tag c) tg) (children e).

(** [elem.findtext(tg)], [None] when there is no such child or it has no
    text. *)
Definition child_text (tg : str) (e : Element) : option str :=
  match find_child tg e with
  | Some c => text c
  | None => None
  end.

(** The keys of the [String] fields of an entry, in order. *)
Definition string_keys (entry : Element) : list (option str) :=
  map (child_text (lit "Key")) (findall (lit "String") entry).

(** The [Value] element of the field with key [k]. *)
Definition field (k : str) (entry : Element) : option Element :=
  match find (fun s => match child_text (lit "Key") s with
                       | Some k' => Py.eqb k' k
                       | None => false
                       end) (findall (lit "String") entry) with
  | Some s => find_child (lit "Value") s
  | None => None
  end.

(** The text of the field with key [k]. *)
Definition field_text (k : str) (entry : Element) : option str :=
  match field k entry with
  | Some v => text v
  | None => None
  end.

(** [elem.get(k)] on the attributes. *)
Fixpoint dict_get (k : str) (d : list (str * str)) : option str :=
  match d with
  | [] => None
  | (k', v) :: d' => if Py.eqb k' k then Some v else dict_get k d'
  end.

(** Whether the field with key [k] is marked [ProtectInMemory="True"]. *)
Definition protected (k : str) (entry : Element) : bool :=
  match field k entry with
  | Some v =>
      match dict_get (lit "ProtectInMemory") (attrib v) with
      | Some b => Py.eqb b (lit "True")
      | None => false
      end
  | None => false
  end.

(** The six keys, in the order of [KeepassXCEntry.__init__]. *)
Definition six_keys : list str :=
  [lit "Notes"; lit "UserName"; lit "Password"; lit "URL"; lit "Title";
   lit "otp"].

(** The arguments of one [KeepassXCEntry(...)] call. *)
Record entry_args := mkArgs {
  a_username : option str;
  a_password : option str;
  a_url : option str;
  a_title : option str;
  a_notes : option str;
  a_totp : option str
}.

Definition build (a : entry_args) : KeepassXCEntry.t :=
  KeepassXCEntry.__init__ (a_username a) (a_password a) (a_url a) (a_title a)
    (a_notes a) (a_totp a).

(** [None] read as the empty string. *)
Definition or_empty (v : option str) : str :=
  match v with
  | Some s => s
  | None => []
  end.

(** A run of [add_group] calls on a fresh dump. *)
Definition add_groups (gs : list (str * list KeepassXCEntry.t))
  (out : KeepassXCDump.t) : KeepassXCDump.t :=
  fold_left (fun d g => KeepassXCDump.add_group (fst g) (snd g) d) gs out.

(** ** The text of the serialized document *)

(** One character of element text as the serializer writes it. *)
Definition esc3 (c : char) : str :=
  if (c =? AMP)%N then lit "&amp;"
  else if (c =? LT)%N then lit "&lt;"
  else if (c =? GT)%N then lit "&gt;"
  else [c].

(** An element without children whose text is [v]; [attrs] is the text of
    its attributes. *)
Definition leaf_xml (tg attrs v : str) : str :=
  lit "<" ++ tg ++ attrs
    ++ match v with
       | [] => lit " />"
       | _ :: _ => lit ">" ++ flat_map esc3 v ++ lit "</" ++ tg ++ lit ">"
       end.

Definition protect_xml : str :=
  lit " ProtectInMemory=" ++ [DQUOTE] ++ lit "True" ++ [DQUOTE].

Definition field_xml (k : str) (v : option str) : str :=
  lit "<String>" ++ leaf_xml (lit "Key") [] k
    ++ leaf_xml (lit "Value") protect_xml (or_empty v) ++ lit "</String>".

Definition autotype_xml : str :=
  lit "<AutoType><Enabled>True</Enabled><DataTransferObfuscation>0</DataTransferObfuscation><DefaultSequence /></AutoType>".

Definition entry_xml (a : entry_args) : str :=
  lit "<Entry>"
    ++ field_xml (lit "Notes") (a_notes a)
    ++ field_xml (lit "UserName") (a_username a)
    ++ field_xml (lit "Password") (a_password a)
    ++ field_xml (lit "URL") (a_url a)
    ++ field_xml (lit "Title") (a_title a)
    ++ field_xml (lit "otp") (a_totp a)
    ++ autotype_xml ++ lit "</Entry>".

Definition group_xml (g : str * list entry_args) : str :=
  lit "<Group>" ++ leaf_xml (lit "Name") [] (fst g)
    ++ flat_map entry_xml (snd g) ++ lit "</Group>".

Definition document_xml (gs : list (str * list entry_args)) : str :=
  lit "<KeePassFile><Root><Group><Name>Root</Name>"
    ++ flat_map group_xml gs ++ lit "</Group></Root></KeePassFile>".

(** The groups of a document, each entry built by the constructor. *)
Definition built_groups (gs : list (str * list entry_args))
  : list (str * list KeepassXCEntry.t) :=
  map (fun g => (fst g, map build (snd g))) gs.

Definition rmap {A B} (f : A -> B) (m : result A) : result B :=
  match m with
  | Ok a => Ok (f a)
  | Raise e => Raise e
  end.

(** ** Stores that differ in the exit statuses only *)

(** The file [f] with the exit status of its subprocess replaced. *)
Definition with_returncode (rc : file -> Z) (f : file) : file :=
  mkFile (f_name f) (mkCompleted (rc f) (stdout (f_gpg f))).

(** The store [n] with every exit status replaced. *)
Fixpoint relabel (rc : file -> Z) (n : node) : node :=
  match n with
  | Dir name entries => Dir name (map (relabel rc) entries)
  | File f => File (with_returncode rc f)
  | Special name => Special name
  end.

Definition relabel_path (rc : file -> Z) (p : Path) : Path :=
  mkPath (parent_name p) (with_returncode rc (path_file p)).

(** The bytes of an ASCII literal. *)
Definition ascii_bytes (s : string) : list byte :=
  map byte_of_ascii (list_ascii_of_string s).

(** ** KeepassXCGroup *)

Module KeepassXCGroup.

(** A group object; [root] is its [Group] element. *)
Record t := mk { root : Element }.

(** [KeepassXCGroup(group_name)]. *)
Definition __init__ (group_name : str) : t :=
  mk (ET.exec
        (name <- ET.SubElement [] (lit "Name") ;;
         ET.set_text name (Some group_name))%et
        (ET.Element (lit "Group"))).

End KeepassXCGroup.

(** ** Well-named stores *)


(** A child the loops pass over: its name starts with a dot, or it is neither
    a directory nor a regular file. *)
Definition ignored (x : node) : bool :=
  match not_hidden (node_name x) with
  | Ok false => true
  | Ok true => match x with Special _ => true | _ => false end
  | Raise _ => false
  end.

(** [reaches n parent f]: below the directory [n], the regular file [f]
    lies directly in a directory named [parent], and neither [f] nor any
    directory on the way down to it has a name starting with a dot. *)
Inductive reaches : node -> str -> file -> Prop :=
| reaches_here (dname : str) (entries : list node) (f : file) :
    In (File f) entries ->
    not_hidden (f_name f) = Ok true ->
    reaches (Dir dname entries) dname f
| reaches_below (dname : str) (entries : list node) (sub : str)
    (subentries : list node) (parent : str) (f : file) :
    In (Dir sub subentries) entries ->
    not_hidden sub = Ok true ->
    reaches (Dir sub subentries) parent f ->
    reaches (Dir dname entries) parent f.

(** [x is not None]. *)
Definition is_some (x : option str) : bool :=
  match x with
  | Some _ => true
  | None => false
  end.


(** * Properties *)

(** ** Strings and lists *)

Lemma eqb_eq (a b : str) : Py.eqb a b = true <-> a = b.
Proof.
  revert b; induction a as [|c a IH]; intros [|d b]; simpl;
    try (split; [discriminate | congruence]); try tauto.
  rewrite andb_true_iff, N.eqb_eq, IH. split.
  - intros [-> ->]; reflexivity.
  - intros H; injection H; auto.
Qed.

Lemma eqb_refl (a : str) : Py.eqb a a = true.
Proof. apply eqb_eq; reflexivity. Qed.

Lemma split_not_nil (sep : char) (s : str) : Py.split sep s <> [].
Proof.
  destruct s as [|c s]; simpl; [discriminate|].
  destruct (c =? sep)%N; [discriminate|].
  destruct (Py.split sep s); discriminate.
Qed.

(** A string without the separator is the only piece. *)
Lemma split_whole (sep : char) (a : str) :
  ~ In sep a -> Py.split sep a = [a].
Proof.
  induction a as [|c a IH]; simpl; intros H; [reflexivity|].
  destruct (N.eqb_spec c sep) as [->|_]; [exfalso; auto|].
  rewrite IH by tauto. reflexivity.
Qed.

(** The piece before the first separator comes first. *)
Lemma split_first (sep : char) (a b : str) :
  ~ In sep a -> Py.split sep (a ++ sep :: b) = a :: Py.split sep b.
Proof.
  induction a as [|c a IH]; simpl; intros H.
  - rewrite N.eqb_refl. reflexivity.
  - destruct (N.eqb_spec c sep) as [->|_]; [exfalso; auto|].
    rewrite IH by tauto. reflexivity.
Qed.

(** Every string is separator-free, or has a separator-free part before
    its first separator. *)
Lemma first_separator (sep : char) (s : str) :
  ~ In sep s \/ exists a b, ~ In sep a /\ s = a ++ sep :: b.
Proof.
  induction s as [|c s IH].
  - left; simpl; tauto.
  - destruct (N.eqb_spec c sep) as [->|Hc].
    + right. exists [], s. simpl; tauto.
    + destruct IH as [IH|(a & b & Ha & ->)].
      * left. simpl. intros [E|E]; auto.
      * right. exists (c :: a), b. simpl. split; [|reflexivity].
        intros [E|E]; auto.
Qed.

(** What [next] finds is an element of the list, so [remove] never fails
    in [parse_pass_format]. *)
Lemma remove_found (m : str) (it : list str) (x : str) :
  first_with m it = Some x -> In x it /\ Py.startswith x m = true.
Proof. intros H. apply find_some in H. exact H. Qed.

Lemma remove_length (x : str) (l : list str) :
  In x l -> S (List.length (Py.remove x l)) = List.length l.
Proof.
  induction l as [|y l IH]; simpl; [tauto|]. intros H.
  destruct (Py.eqb y x) eqn:E; [reflexivity|].
  destruct H as [->|H]; [rewrite eqb_refl in E; discriminate|].
  simpl. rewrite IH by assumption. reflexivity.
Qed.

Lemma remove_subset (x y : str) (l : list str) :
  In y (Py.remove x l) -> In y l.
Proof.
  induction l as [|z l IH]; simpl; [tauto|].
  destruct (Py.eqb z x); simpl; tauto.
Qed.

Lemma first_with_none (m : str) (it : list str) :
  forallb (fun x => negb (Py.startswith x m)) it = true ->
  first_with m it = None.
Proof.
  unfold first_with. induction it as [|x it IH]; simpl; [reflexivity|].
  rewrite andb_true_iff, negb_true_iff. intros [-> H]. auto.
Qed.

Lemma forallb_remove (P : str -> bool) (x : str) (l : list str) :
  forallb P l = true -> forallb P (Py.remove x l) = true.
Proof.
  rewrite !forallb_forall. intros H y Hy. apply H.
  eapply remove_subset; eassumption.
Qed.

(** ** The record parser *)

(** The marker-extraction scenario. *)
Example parse_markers :
  parse_pass_format
    (lit "secret" ++ NL :: lit "login: bob" ++ NL :: lit "url: example.com"
       ++ NL :: lit "otpauth://totp/X" ++ NL :: lit "line4")
  = mkParsed (lit "secret") (lit "line4") (Some (lit "otpauth://totp/X"))
      (Some (lit "bob")) (Some (lit "example.com")).
Proof. vm_compute. reflexivity. Qed.

Lemma password_is_head (src : str) :
  p_password (parse_pass_format src) = hd [] (Py.split NL src).
Proof. reflexivity. Qed.

(** C8: for every decrypted text, the password is the part of the text
    before its first newline, and the whole text when it has no newline:
    the password contains no newline, and the text is the password alone or
    the password followed by a newline and the rest. *)
Theorem password_is_first_line (src : str) :
  let password := p_password (parse_pass_format src) in
  ~ In NL password
  /\ (src = password \/ exists rest, src = password ++ NL :: rest).
Proof.
  cbv zeta. rewrite password_is_head.
  destruct (first_separator NL src) as [H|(a & b & Ha & ->)].
  - rewrite split_whole by assumption. simpl. auto.
  - rewrite split_first by assumption. simpl. split; [assumption|].
    right. exists b. reflexivity.
Qed.

(** A first line without the marker [m] is passed over by the scan for
    [m] and stays at index 0 when the line found is removed. *)
Lemma scan_passes_first_line (m a : str) (rest : list str) :
  Py.startswith a m = false ->
  first_with m (a :: rest) = first_with m rest
  /\ match first_with m rest with
     | Some x => Py.remove x (a :: rest) = a :: Py.remove x rest
     | None => True
     end.
Proof.
  intros Ha. unfold first_with. cbn [find]. rewrite Ha. split; [reflexivity|].
  fold (first_with m rest).
  destruct (first_with m rest) as [x|] eqn:E; [|exact I].
  apply remove_found in E. destruct E as [_ Hx].
  cbn [Py.remove]. destruct (Py.eqb a x) eqn:Eax; [|reflexivity].
  apply eqb_eq in Eax. subst x. congruence.
Qed.

(** When the first line carries no marker, the parser does what the
    specification says: scanning every line or the remaining lines only
    makes no difference. *)
Lemma plain_first_line_agrees (src : str) :
  is_marker_line (hd [] (Py.split NL src)) = false ->
  parse_pass_format src = parse_remaining_lines src.
Proof.
  unfold is_marker_line, parse_pass_format, parse_remaining_lines.
  destruct (Py.split NL src) as [|a rest] eqn:E;
    [exfalso; eapply split_not_nil; eassumption|].
  cbn [hd tl]. rewrite !orb_false_iff. intros [[H1 H2] H3].
  destruct (scan_passes_first_line OTPAUTH a rest H1) as [-> R1].
  destruct (first_with OTPAUTH rest) as [t|].
  - rewrite R1.
    destruct (scan_passes_first_line LOGIN a (Py.remove t rest) H2) as [-> R2].
    destruct (first_with LOGIN (Py.remove t rest)) as [u|].
    + rewrite R2.
      destruct (scan_passes_first_line URL_ a (Py.remove u (Py.remove t rest))
                  H3) as [-> R3].
      destruct (first_with URL_ _) as [w|]; [rewrite R3|]; reflexivity.
    + destruct (scan_passes_first_line URL_ a (Py.remove t rest) H3) as [-> R3].
      destruct (first_with URL_ _) as [w|]; [rewrite R3|]; reflexivity.
  - destruct (scan_passes_first_line LOGIN a rest H2) as [-> R2].
    destruct (first_with LOGIN rest) as [u|].
    + rewrite R2.
      destruct (scan_passes_first_line URL_ a (Py.remove u rest) H3) as [-> R3].
      destruct (first_with URL_ _) as [w|]; [rewrite R3|]; reflexivity.
    + destruct (scan_passes_first_line URL_ a rest H3) as [-> R3].
      destruct (first_with URL_ _) as [w|]; [rewrite R3|]; reflexivity.
Qed.

(** When the first line carries the [otpauth://] marker, the scan takes it:
    it becomes the one-time-password value as well as the password. *)
Lemma marker_on_first_line (a b : str) :
  ~ In NL a -> Py.startswith a OTPAUTH = true ->
  let r := parse_pass_format (a ++ NL :: b) in
  p_password r = a /\ p_totp r = Some a.
Proof.
  intros Ha Hm. unfold parse_pass_format. rewrite split_first by assumption.
  cbn [hd first_with find p_password p_totp]. rewrite Hm. auto.
Qed.

(** C1 at a first line that is a marker line: the marker scan starts at
    index 0, so the first line is taken as the one-time-password value and
    removed from the list, and [it[1:]] then drops the line [note1].  With
    the scan on the remaining lines only, nothing would be taken and both
    notes lines kept ([remaining_lines_keep_note]). *)
Theorem first_line_marker_loses_note :
  parse_pass_format
    (lit "otpauth://x" ++ NL :: lit "note1" ++ NL :: lit "note2")
  = mkParsed (lit "otpauth://x") (lit "note2") (Some (lit "otpauth://x"))
      None None.
Proof. vm_compute. reflexivity. Qed.

Example remaining_lines_keep_note :
  parse_remaining_lines
    (lit "otpauth://x" ++ NL :: lit "note1" ++ NL :: lit "note2")
  = mkParsed (lit "otpauth://x") (lit "note1" ++ NL :: lit "note2") None
      None None.
Proof. vm_compute. reflexivity. Qed.

(** The same with a [login:] first line. *)
Example first_line_login :
  parse_pass_format (lit "login: bob" ++ NL :: lit "note1" ++ NL :: lit "note2")
  = mkParsed (lit "login: bob") (lit "note2") None (Some (lit "bob")) None.
Proof. vm_compute. reflexivity. Qed.

(** ** Building trees *)

Lemma nth_error_last {A} (l : list A) (x : A) :
  nth_error (l ++ [x]) (List.length l) = Some x.
Proof. induction l; simpl; auto. Qed.

Lemma at_index_last {A} (f : A -> A) (l : list A) (x : A) :
  ET.at_index (List.length l) f (l ++ [x]) = l ++ [f x].
Proof. induction l; simpl; congruence. Qed.

(** *** One step of a builder, at the top of a tree *)

Lemma SubElement_top (tg' : str) tg a x cs :
  ET.SubElement [] tg' (Elem tg a x cs)
  = ([List.length cs], Elem tg a x (cs ++ [Elem tg' [] None []])).
Proof. reflexivity. Qed.

Lemma set_text_top (v : option str) tg a x cs :
  ET.set_text [] v (Elem tg a x cs) = (tt, Elem tg a v cs).
Proof. reflexivity. Qed.

Lemma set_top (k v : str) tg a x cs :
  ET.set [] k v (Elem tg a x cs) = (tt, Elem tg (ET.dict_set k v a) x cs).
Proof. reflexivity. Qed.

Lemma extend_top (es : list Element) tg a x cs :
  ET.extend [] es (Elem tg a x cs) = (tt, Elem tg a x (cs ++ es)).
Proof. reflexivity. Qed.

(** *** One step of a builder, through a reference into the last child *)

Lemma SubElement_last (r : ET.ref) (tg' : str) tg a x cs c :
  ET.SubElement (List.length cs :: r) tg' (Elem tg a x (cs ++ [c]))
  = (List.length cs :: fst (ET.SubElement r tg' c),
     Elem tg a x (cs ++ [snd (ET.SubElement r tg' c)])).
Proof.
  unfold ET.SubElement. cbn [ET.deref children ET.at_ref fst snd app].
  rewrite nth_error_last, at_index_last. reflexivity.
Qed.

Lemma set_text_last (r : ET.ref) (v : option str) tg a x cs c :
  ET.set_text (List.length cs :: r) v (Elem tg a x (cs ++ [c]))
  = (tt, Elem tg a x (cs ++ [snd (ET.set_text r v c)])).
Proof.
  unfold ET.set_text. cbn [ET.at_ref snd]. rewrite at_index_last.
  reflexivity.
Qed.

Lemma set_last (r : ET.ref) (k v : str) tg a x cs c :
  ET.set (List.length cs :: r) k v (Elem tg a x (cs ++ [c]))
  = (tt, Elem tg a x (cs ++ [snd (ET.set r k v c)])).
Proof.
  unfold ET.set. cbn [ET.at_ref snd]. rewrite at_index_last. reflexivity.
Qed.

Lemma extend_last (r : ET.ref) (es : list Element) tg a x cs c :
  ET.extend (List.length cs :: r) es (Elem tg a x (cs ++ [c]))
  = (tt, Elem tg a x (cs ++ [snd (ET.extend r es c)])).
Proof.
  unfold ET.extend. cbn [ET.at_ref snd]. rewrite at_index_last. reflexivity.
Qed.

(** Run a builder symbolically, one statement at a time. *)
Ltac et_run :=
  unfold ET.exec, ET.bind, ET.ret;
  repeat (first
            [ rewrite SubElement_top | rewrite SubElement_last
            | rewrite set_text_top | rewrite set_text_last
            | rewrite set_top | rewrite set_last
            | rewrite extend_top | rewrite extend_last ];
          cbv beta iota; cbn [fst snd]).

Lemma add_string_field_exec (k : str) (v : option str) tg a x cs :
  ET.exec (KeepassXCEntry.add_string_field k v) (Elem tg a x cs)
  = Elem tg a x (cs ++ [String_ k v]).
Proof.
  unfold KeepassXCEntry.add_string_field, KeepassXCEntry.self_root.
  et_run. reflexivity.
Qed.

Lemma add_auto_type_exec tg a x cs :
  ET.exec KeepassXCEntry.add_auto_type (Elem tg a x cs)
  = Elem tg a x (cs ++ [AutoType_]).
Proof.
  unfold KeepassXCEntry.add_auto_type, KeepassXCEntry.self_root.
  et_run. reflexivity.
Qed.

Lemma exec_bind {A B} (m : ET.M A) (k : A -> ET.M B) (t : Element) :
  ET.exec (ET.bind m k) t = ET.exec (k (fst (m t))) (ET.exec m t).
Proof. unfold ET.exec, ET.bind. destruct (m t); reflexivity. Qed.

(** The tree [KeepassXCEntry.__init__] builds. *)
Lemma entry_root (username password url title notes totp : option str) :
  KeepassXCEntry.root
    (KeepassXCEntry.__init__ username password url title notes totp)
  = Elem (lit "Entry") [] None
      [String_ (lit "Notes") notes; String_ (lit "UserName") username;
       String_ (lit "Password") password; String_ (lit "URL") url;
       String_ (lit "Title") title; String_ (lit "otp") totp; AutoType_].
Proof.
  unfold KeepassXCEntry.__init__, ET.Element. cbn [KeepassXCEntry.root].
  rewrite !exec_bind, !add_string_field_exec, add_auto_type_exec.
  reflexivity.
Qed.

(** The state of a fresh dump. *)
Lemma dump_init :
  KeepassXCDump.__init__ = Dump_ [Elem (lit "Name") [] (Some (lit "Root")) []].
Proof. reflexivity. Qed.

(** [add_group] appends one group to the root group. *)
Lemma add_group_Dump (name : str) (entries : list KeepassXCEntry.t) cs :
  KeepassXCDump.add_group name entries (Dump_ cs)
  = Dump_ (cs ++ [Group_ name (map KeepassXCEntry.root entries)]).
Proof.
  unfold KeepassXCDump.add_group, Dump_.
  cbn [KeepassXCDump.root KeepassXCDump.KeePassFile]. f_equal.
  change [0; 0]
    with [List.length (@nil Element); List.length (@nil Element)].
  change [Elem (lit "Root") [] None [Elem (lit "Group") [] None cs]]
    with ([] ++ [Elem (lit "Root") [] None ([] ++ [Elem (lit "Group") [] None cs])]).
  et_run. reflexivity.
Qed.

Lemma add_groups_Dump (gs : list (str * list KeepassXCEntry.t)) cs :
  add_groups gs (Dump_ cs)
  = Dump_ (cs ++ map (fun g => Group_ (fst g)
                                 (map KeepassXCEntry.root (snd g))) gs).
Proof.
  unfold add_groups. revert cs.
  induction gs as [|g gs IH]; intros cs; simpl.
  - rewrite app_nil_r. reflexivity.
  - rewrite add_group_Dump, IH, <- app_assoc. reflexivity.
Qed.

(** ** Serialization *)

Lemma serialize_each (cs : list Element) :
  (fix each (l : list Element) : str :=
     match l with
     | [] => []
     | c :: l' => ET._serialize_xml c ++ each l'
     end) cs
  = flat_map ET._serialize_xml cs.
Proof.
  induction cs as [|c cs IH]; [reflexivity|].
  cbn [flat_map]. rewrite <- IH. reflexivity.
Qed.

Lemma serialize_unfold tg a x cs :
  ET._serialize_xml (Elem tg a x cs)
  = lit "<" ++ tg ++ flat_map ET.write_attrib a
      ++ (if ET.truthy x || negb (Nat.eqb (List.length cs) 0) then
            lit ">" ++ match x with
                       | Some s => ET._escape_cdata s
                       | None => []
                       end
              ++ flat_map ET._serialize_xml cs ++ lit "</" ++ tg ++ lit ">"
          else lit " />").
Proof.
  rewrite <- serialize_each. destruct cs; reflexivity.
Qed.

Lemma replace_cons (old : char) (new : str) (c : char) (s : str) :
  ET.replace old new (c :: s)
  = (if (c =? old)%N then new else [c]) ++ ET.replace old new s.
Proof. reflexivity. Qed.

Lemma replace_app (old : char) (new : str) (s1 s2 : str) :
  ET.replace old new (s1 ++ s2)
  = ET.replace old new s1 ++ ET.replace old new s2.
Proof. unfold ET.replace. apply flat_map_app. Qed.

(** The three replacements of [_escape_cdata], done one after the other on
    the whole string, are a character-by-character substitution. *)
Lemma escape_cdata_charwise (s : str) :
  ET._escape_cdata s = flat_map esc3 s.
Proof.
  unfold ET._escape_cdata. induction s as [|c s IH]; [reflexivity|].
  cbn [flat_map]. rewrite <- IH. rewrite replace_cons, !replace_app.
  f_equal. unfold esc3.
  destruct (N.eqb_spec c AMP) as [->|H1]; [reflexivity|].
  destruct (N.eqb_spec c LT) as [->|H2]; [reflexivity|].
  destruct (N.eqb_spec c GT) as [->|H3]; [reflexivity|].
  cbn [ET.replace flat_map app].
  destruct (N.eqb_spec c LT); [contradiction|].
  cbn [flat_map app].
  destruct (N.eqb_spec c GT); [contradiction|]. reflexivity.
Qed.

Lemma serialize_leaf (tg : str) (a : list (str * str)) (v : option str) :
  ET._serialize_xml (Elem tg a v [])
  = leaf_xml tg (flat_map ET.write_attrib a) (or_empty v).
Proof.
  rewrite serialize_unfold. unfold leaf_xml.
  destruct v as [[|c v]|]; cbn [ET.truthy or_empty orb negb Nat.eqb List.length];
    try reflexivity.
  rewrite escape_cdata_charwise. reflexivity.
Qed.

Lemma serialize_String (k : str) (v : option str) :
  ET._serialize_xml (String_ k v) = field_xml k v.
Proof.
  unfold String_, field_xml. rewrite serialize_unfold.
  cbn [ET.truthy orb negb Nat.eqb List.length flat_map].
  rewrite !serialize_leaf. cbn [or_empty flat_map app].
  rewrite app_nil_r, <- !app_assoc. reflexivity.
Qed.

Lemma serialize_AutoType : ET._serialize_xml AutoType_ = autotype_xml.
Proof. vm_compute. reflexivity. Qed.

Lemma serialize_entry (a : entry_args) :
  ET._serialize_xml (KeepassXCEntry.root (build a)) = entry_xml a.
Proof.
  unfold build, entry_xml. rewrite entry_root, serialize_unfold.
  cbn [ET.truthy orb negb Nat.eqb List.length flat_map].
  rewrite !serialize_String, serialize_AutoType.
  cbn [app]. rewrite app_nil_r, <- !app_assoc. reflexivity.
Qed.

Lemma serialize_entries (es : list entry_args) :
  flat_map ET._serialize_xml (map KeepassXCEntry.root (map build es))
  = flat_map entry_xml es.
Proof.
  induction es as [|a es IH]; [reflexivity|].
  cbn [map flat_map]. rewrite serialize_entry, IH. reflexivity.
Qed.

Lemma serialize_group (g : str * list entry_args) :
  ET._serialize_xml
    (Group_ (fst g) (map KeepassXCEntry.root (map build (snd g))))
  = group_xml g.
Proof.
  unfold Group_, group_xml. rewrite serialize_unfold.
  cbn [ET.truthy orb negb Nat.eqb List.length flat_map].
  rewrite serialize_leaf, serialize_entries.
  cbn [or_empty flat_map app]. rewrite <- !app_assoc. reflexivity.
Qed.

Lemma serialize_groups (gs : list (str * list entry_args)) :
  flat_map ET._serialize_xml
    (map (fun g => Group_ (fst g) (map KeepassXCEntry.root (snd g)))
       (built_groups gs))
  = flat_map group_xml gs.
Proof.
  induction gs as [|g gs IH]; [reflexivity|].
  cbn [built_groups map flat_map fst snd].
  rewrite serialize_group. fold (built_groups gs). rewrite IH. reflexivity.
Qed.

(** The text [print(out)] writes after a run of [add_group] calls. *)
Lemma dump_str (gs : list (str * list entry_args)) :
  KeepassXCDump.__str__ (add_groups (built_groups gs) KeepassXCDump.__init__)
  = document_xml gs.
Proof.
  rewrite dump_init, add_groups_Dump.
  unfold KeepassXCDump.__str__, ET.tostring, Dump_, document_xml.
  cbn [KeepassXCDump.KeePassFile].
  rewrite serialize_unfold.
  cbn [ET.truthy orb negb Nat.eqb List.length flat_map].
  rewrite serialize_unfold.
  cbn [ET.truthy orb negb Nat.eqb List.length flat_map].
  rewrite serialize_unfold.
  cbn [ET.truthy orb negb Nat.eqb List.length flat_map app].
  rewrite serialize_groups.
  change (ET._serialize_xml (Elem (lit "Name") [] (Some (lit "Root")) []))
    with (lit "<Name>Root</Name>").
  rewrite !app_nil_r, <- !app_assoc. reflexivity.
Qed.

(** ** Entries *)

Lemma entry_keys (a : entry_args) :
  string_keys (KeepassXCEntry.root (build a)) = map Some six_keys.
Proof. unfold build. rewrite entry_root. reflexivity. Qed.

Lemma or_empty_idem (v : option str) : or_empty (Some (or_empty v)) = or_empty v.
Proof. reflexivity. Qed.

(** C6: whatever the six arguments are, [None] included, the entry has
    exactly six [String] children, their keys are Notes, UserName, Password,
    URL, Title, otp in this order, each has a [Value] element holding the
    argument, and an absent argument is written exactly as the empty string
    is. *)
Theorem entry_has_six_fields
  (username password url title notes totp : option str) :
  let e := KeepassXCEntry.root
             (KeepassXCEntry.__init__ username password url title notes totp) in
  List.length (findall (lit "String") e) = 6
  /\ string_keys e = map Some six_keys
  /\ map (fun k => option_map text (field k e)) six_keys
     = map Some [notes; username; password; url; title; totp]
  /\ ET.tostring e
     = ET.tostring
         (KeepassXCEntry.root
            (KeepassXCEntry.__init__ (Some (or_empty username))
               (Some (or_empty password)) (Some (or_empty url))
               (Some (or_empty title)) (Some (or_empty notes))
               (Some (or_empty totp)))).
Proof.
  cbv zeta. rewrite entry_root. repeat split.
  unfold ET.tostring. rewrite <- entry_root.
  change (KeepassXCEntry.__init__ username password url title notes totp)
    with (build (mkArgs username password url title notes totp)).
  change (KeepassXCEntry.__init__ (Some (or_empty username))
            (Some (or_empty password)) (Some (or_empty url))
            (Some (or_empty title)) (Some (or_empty notes))
            (Some (or_empty totp)))
    with (build (mkArgs (Some (or_empty username)) (Some (or_empty password))
                   (Some (or_empty url)) (Some (or_empty title))
                   (Some (or_empty notes)) (Some (or_empty totp)))).
  rewrite !serialize_entry. reflexivity.
Qed.

(** C7: [add_string_field] sets [ProtectInMemory="True"] on the value of
    every field it adds, so in every entry all six fields carry the marking,
    Title, URL and UserName as well as Password, Notes and otp. *)
Theorem every_field_is_protected
  (username password url title notes totp : option str) :
  let e := KeepassXCEntry.root
             (KeepassXCEntry.__init__ username password url title notes totp) in
  map (fun k => protected k e) six_keys = [true; true; true; true; true; true].
Proof. cbv zeta. rewrite entry_root. reflexivity. Qed.

(** ** Documents *)

Lemma findall_Groups (gs : list (str * list KeepassXCEntry.t)) :
  filter (fun c => Py.eqb (tag c) (lit "Group"))
    (map (fun g => Group_ (fst g) (map KeepassXCEntry.root (snd g))) gs)
  = map (fun g => Group_ (fst g) (map KeepassXCEntry.root (snd g))) gs.
Proof.
  induction gs as [|g gs IH]; [reflexivity|].
  cbn [map filter]. rewrite IH. reflexivity.
Qed.

Lemma findall_Entries (es : list entry_args) (name : str) :
  findall (lit "Entry") (Group_ name (map KeepassXCEntry.root (map build es)))
  = map KeepassXCEntry.root (map build es).
Proof.
  unfold findall, Group_. cbn [children]. cbn [filter].
  change (Py.eqb (tag (Elem (lit "Name") [] (Some name) [])) (lit "Entry"))
    with false. cbv iota.
  induction es as [|a es IH]; [reflexivity|].
  cbn [map filter]. rewrite IH. unfold build at 1. rewrite entry_root.
  reflexivity.
Qed.

(** C9: after N [add_group] calls on a fresh dump, the tree is the
    container [KeePassFile] holding one [Root] element holding one group
    named Root, whose [Group] children are the N groups, in insertion order
    and with the names and entries given; every entry has the six keys in
    the fixed order; and the printed text is that tree written out. *)
Theorem groups_in_insertion_order (gs : list (str * list entry_args)) :
  let out := add_groups (built_groups gs) KeepassXCDump.__init__ in
  let groups :=
    map (fun g => Group_ (fst g) (map KeepassXCEntry.root (map build (snd g))))
      gs in
  KeepassXCDump.KeePassFile out
  = Elem (lit "KeePassFile") [] None
      [Elem (lit "Root") [] None
         [Elem (lit "Group") [] None
            (Elem (lit "Name") [] (Some (lit "Root")) [] :: groups)]]
  /\ (exists root_group,
        ET.deref (KeepassXCDump.root out) (KeepassXCDump.KeePassFile out)
        = Some root_group
        /\ child_text (lit "Name") root_group = Some (lit "Root")
        /\ List.length (findall (lit "Group") root_group) = List.length gs
        /\ map (child_text (lit "Name")) (findall (lit "Group") root_group)
           = map (fun g => Some (fst g)) gs
        /\ map (fun g => map string_keys (findall (lit "Entry") g))
             (findall (lit "Group") root_group)
           = map (fun g => map (fun _ => map Some six_keys) (snd g)) gs)
  /\ KeepassXCDump.__str__ out = document_xml gs.
Proof.
  cbv zeta. split; [|split; [|apply dump_str]].
  - rewrite dump_init, add_groups_Dump. unfold Dump_, built_groups.
    cbn [KeepassXCDump.KeePassFile app]. rewrite map_map. reflexivity.
  - rewrite dump_init, add_groups_Dump. unfold Dump_.
    cbn [KeepassXCDump.KeePassFile KeepassXCDump.root app].
    eexists. split; [reflexivity|]. split; [reflexivity|].
    unfold findall. cbn [children filter].
    change (Py.eqb (tag (Elem (lit "Name") [] (Some (lit "Root")) []))
              (lit "Group")) with false. cbv iota.
    rewrite findall_Groups. unfold built_groups. rewrite !map_map.
    cbn [fst snd]. split; [apply length_map|]. split; [reflexivity|].
    apply map_ext. intros g.
    change (filter (fun c => Py.eqb (tag c) (lit "Entry"))
              (children (Group_ (fst g)
                           (map KeepassXCEntry.root (map build (snd g))))))
      with (findall (lit "Entry")
              (Group_ (fst g) (map KeepassXCEntry.root (map build (snd g))))).
    rewrite findall_Entries, !map_map. apply map_ext. intros a.
    apply entry_keys.
Qed.

(** C2 as stated fails on the quote characters: a group name and a field
    value made of an apostrophe and a double quote are written as they
    are. *)
Lemma quotes_are_not_escaped :
  KeepassXCDump.__str__
    (KeepassXCDump.add_group [APOS; DQUOTE] [] KeepassXCDump.__init__)
  = lit "<KeePassFile><Root><Group><Name>Root</Name><Group><Name>"
      ++ [APOS; DQUOTE]
      ++ lit "</Name></Group></Group></Root></KeePassFile>"
  /\ ET.tostring
       (ET.exec
          (KeepassXCEntry.add_string_field (lit "Password")
             (Some [APOS; DQUOTE]))
          (ET.Element (lit "Entry")))
     = lit "<Entry><String><Key>Password</Key><Value ProtectInMemory="
         ++ [DQUOTE] ++ lit "True" ++ [DQUOTE] ++ lit ">"
         ++ [APOS; DQUOTE] ++ lit "</Value></String></Entry>".
Proof. split; vm_compute; reflexivity. Qed.

(** C2, amended: group names and field values are element text, and the
    serializer writes element text character by character, replacing the
    ampersand, the less-than sign and the greater-than sign by their
    entities and leaving every other character, the two quote characters
    included, as it is. *)
Theorem text_is_escaped (gs : list (str * list entry_args)) (s : str) :
  KeepassXCDump.__str__ (add_groups (built_groups gs) KeepassXCDump.__init__)
  = document_xml gs
  /\ ET._escape_cdata s = flat_map esc3 s
  /\ esc3 AMP = lit "&amp;" /\ esc3 LT = lit "&lt;" /\ esc3 GT = lit "&gt;"
  /\ esc3 DQUOTE = [DQUOTE] /\ esc3 APOS = [APOS].
Proof.
  split; [apply dump_str|]. split; [apply escape_cdata_charwise|].
  repeat split.
Qed.

(** ** The traversal *)

Lemma node_induction (P : node -> Prop) :
  (forall name entries, Forall P entries -> P (Dir name entries)) ->
  (forall f, P (File f)) ->
  (forall name, P (Special name)) ->
  forall n, P n.
Proof.
  intros HD HF HS. fix IH 1. intros [name entries|f|name].
  - apply HD. induction entries as [|x l IHl]; constructor.
    + apply IH.
    + exact IHl.
  - apply HF.
  - apply HS.
Qed.

Lemma find_files_nil (dname : str) : find_files (Dir dname []) = Ok [].
Proof. reflexivity. Qed.

Lemma find_files_cons (dname : str) (x : node) (l : list node) :
  find_files (Dir dname (x :: l))
  = (v <- not_hidden (node_name x) ;;
     if v : bool then
       match x with
       | Dir _ _ =>
           a <- find_files x ;; b <- find_files (Dir dname l) ;; Ok (a ++ b)
       | File f => b <- find_files (Dir dname l) ;; Ok (mkPath dname f :: b)
       | Special _ => find_files (Dir dname l)
       end
     else find_files (Dir dname l))%res.
Proof. destruct x; reflexivity. Qed.

(** ** Decryption and the inner loop *)

(** The exit status plays no part in [decrypt]. *)
Lemma decrypt_ignores_returncode (rc : file -> Z) (f : file) :
  decrypt (with_returncode rc f) = decrypt f.
Proof. reflexivity. Qed.

Lemma decrypt_cases (f : file) :
  (exists s, Utf8.decode (stdout (f_gpg f)) = Some s /\ decrypt f = Ok s)
  \/ (Utf8.decode (stdout (f_gpg f)) = None
      /\ decrypt f = Raise UnicodeDecodeError).
Proof.
  unfold decrypt. destruct (Utf8.decode (stdout (f_gpg f))) as [s|].
  - left. exists s. auto.
  - right. auto.
Qed.

Lemma dir_entry_skips (acc : list KeepassXCEntry.t) (p : Path) :
  Utf8.decode (stdout (f_gpg (path_file p))) = None ->
  dir_entry acc p = Ok acc.
Proof.
  intros H. unfold dir_entry, decrypt. rewrite H. reflexivity.
Qed.

(** The inner loop never raises: the one exception [decrypt] can raise is
    caught. *)
Lemma dir_entry_total (acc : list KeepassXCEntry.t) (p : Path) :
  exists es, dir_entry acc p = Ok es.
Proof.
  unfold dir_entry.
  destruct (decrypt_cases (path_file p)) as [(s & _ & ->)|(_ & ->)];
    eexists; reflexivity.
Qed.

Lemma dir_entries_total (files : list Path) (acc : list KeepassXCEntry.t) :
  exists es, dir_entries files acc = Ok es.
Proof.
  revert acc. induction files as [|p files IH]; intros acc; simpl.
  - eexists; reflexivity.
  - destruct (dir_entry_total acc p) as (es & ->). simpl. apply IH.
Qed.

Lemma dir_entries_app (l1 l2 : list Path) (acc : list KeepassXCEntry.t) :
  dir_entries (l1 ++ l2) acc
  = (acc' <- dir_entries l1 acc ;; dir_entries l2 acc')%res.
Proof.
  revert acc. induction l1 as [|p l1 IH]; intros acc; simpl; [reflexivity|].
  destruct (dir_entry acc p); simpl; [apply IH | reflexivity].
Qed.

(** A file that does not decode leaves the loop as if it were not there. *)
Lemma dir_entries_skip (before after : list Path) (p : Path)
  (acc : list KeepassXCEntry.t) :
  Utf8.decode (stdout (f_gpg (path_file p))) = None ->
  dir_entries (before ++ p :: after) acc = dir_entries (before ++ after) acc.
Proof.
  intros H. rewrite !dir_entries_app.
  destruct (dir_entries before acc) as [acc'|e]; simpl; [|reflexivity].
  rewrite dir_entry_skips by assumption. reflexivity.
Qed.

(** ** The outer loop *)

Lemma main_loop_Dir (gname : str) (entries rest : list node)
  (files : list Path) (es : list KeepassXCEntry.t) (out : KeepassXCDump.t) :
  not_hidden gname = Ok true ->
  find_files (Dir gname entries) = Ok files ->
  dir_entries files [] = Ok es ->
  main_loop (Dir gname entries :: rest) out
  = main_loop rest
      (KeepassXCDump.add_group (Py.removesuffix gname GPG) es out).
Proof.
  intros Hv Hf He. cbn [main_loop node_name]. rewrite Hv. cbn [rbind].
  rewrite Hf. cbn [rbind]. rewrite He. reflexivity.
Qed.

Lemma main_loop_File_skip (f : file) (rest : list node)
  (out : KeepassXCDump.t) :
  not_hidden (f_name f) = Ok true ->
  Utf8.decode (stdout (f_gpg f)) = None ->
  main_loop (File f :: rest) out = main_loop rest out.
Proof.
  intros Hv Hd. cbn [main_loop node_name]. rewrite Hv. cbn [rbind].
  unfold decrypt. rewrite Hd. reflexivity.
Qed.

Lemma main_loop_File (f : file) (contents : str) (rest : list node)
  (out : KeepassXCDump.t) :
  not_hidden (f_name f) = Ok true ->
  decrypt f = Ok contents ->
  main_loop (File f :: rest) out
  = let r := parse_pass_format contents in
    let filename := Py.removesuffix (f_name f) GPG in
    main_loop rest
      (KeepassXCDump.add_group filename
         [KeepassXCEntry.__init__ (p_username r) (Some (p_password r))
            (Some (Py.or_ (p_url r) filename)) (p_username r)
            (Some (p_notes r)) (p_totp r)] out).
Proof.
  intros Hv Hd. cbn [main_loop node_name]. rewrite Hv. cbn [rbind].
  rewrite Hd. reflexivity.
Qed.

(** C4 as stated fails for a top-level file: a store whose only child is a
    file that does not decode gives a document without any group. *)
Lemma undecodable_top_level_file_has_no_group :
  main [lit "pass-to-keepassxc.py"; lit "store"]
    (fun _ => Some (Dir (lit "store")
                      [File (mkFile (lit "photo.gpg") (mkCompleted 0 [xff]))]))
  = Exit 0
      (lit "<KeePassFile><Root><Group><Name>Root</Name></Group></Root></KeePassFile>"
         ++ [NL]).
Proof. vm_compute. reflexivity. Qed.

(** C4, amended: a file [f] found below a top-level directory whose
    decrypted bytes are not valid UTF-8 gives no entry, the group of that
    directory is still added, with the entries of the other files, and the
    run goes on with the remaining children; a top-level file [g] whose
    bytes are not valid UTF-8 adds no group at all, and the run goes on with
    the remaining children. *)
Theorem undecodable_files_are_skipped
  (f g : file) (parent gname : str) (before after : list Path)
  (entries rest : list node) (out : KeepassXCDump.t) :
  Utf8.decode (stdout (f_gpg f)) = None ->
  Utf8.decode (stdout (f_gpg g)) = None ->
  not_hidden gname = Ok true ->
  find_files (Dir gname entries) = Ok (before ++ mkPath parent f :: after) ->
  not_hidden (f_name g) = Ok true ->
  (exists es,
      dir_entries (before ++ after) [] = Ok es
      /\ main_loop (Dir gname entries :: rest) out
         = main_loop rest
             (KeepassXCDump.add_group (Py.removesuffix gname GPG) es out))
  /\ main_loop (File g :: rest) out = main_loop rest out.
Proof.
  intros Hf Hg Hv Hfiles Hvg. split.
  - destruct (dir_entries_total (before ++ after) []) as (es & Hes).
    exists es. split; [assumption|].
    eapply main_loop_Dir; [eassumption | eassumption|].
    rewrite dir_entries_skip by assumption. assumption.
  - apply main_loop_File_skip; assumption.
Qed.

Lemma undecodable_files_are_skipped_witness :
  let alice := mkFile (lit "alice.gpg") (mkCompleted 0 (ascii_bytes "p@ss")) in
  let photo := mkFile (lit "photo.gpg") (mkCompleted 0 [xff]) in
  (exists es,
      dir_entries ([mkPath (lit "work") alice] ++ []) [] = Ok es
      /\ main_loop [Dir (lit "work") [File alice; File photo]]
           KeepassXCDump.__init__
         = main_loop []
             (KeepassXCDump.add_group (Py.removesuffix (lit "work") GPG) es
                KeepassXCDump.__init__))
  /\ main_loop [File photo] KeepassXCDump.__init__
     = main_loop [] KeepassXCDump.__init__.
Proof.
  cbv zeta.
  apply (@undecodable_files_are_skipped
           (mkFile (lit "photo.gpg") (mkCompleted 0 [xff]))
           (mkFile (lit "photo.gpg") (mkCompleted 0 [xff]))
           (lit "work") (lit "work")
           [mkPath (lit "work")
              (mkFile (lit "alice.gpg") (mkCompleted 0 (ascii_bytes "p@ss")))]
           []); reflexivity.
Defined.

(** ** Top-level files *)

Lemma no_url_line (src : str) :
  existsb (fun line => Py.startswith line URL_) (Py.split NL src) = false ->
  p_url (parse_pass_format src) = None.
Proof.
  intros H.
  assert (Hall : forallb (fun x => negb (Py.startswith x URL_))
                   (Py.split NL src) = true).
  { apply forallb_forall. intros x Hx. apply negb_true_iff.
    destruct (Py.startswith x URL_) eqn:E; [|reflexivity].
    rewrite <- H. symmetry. apply existsb_exists. exists x. auto. }
  unfold parse_pass_format. cbn [p_url].
  rewrite first_with_none; [reflexivity|].
  destruct (first_with LOGIN _); destruct (first_with OTPAUTH _);
    repeat apply forallb_remove; exact Hall.
Qed.

(** C5 as stated fails on Title and UserName: for the top-level file
    [github.gpg] holding a [login:] line, both are the login name, not the
    name of the file. *)
Lemma standalone_title_is_login :
  let e := KeepassXCEntry.__init__ (Some (lit "bob")) (Some (lit "pw"))
             (Some (lit "github")) (Some (lit "bob")) (Some []) None in
  main_loop
    [File (mkFile (lit "github.gpg")
             (mkCompleted 0
                (ascii_bytes "pw" ++ x0a :: ascii_bytes "login: bob")))]
    KeepassXCDump.__init__
  = Ok (KeepassXCDump.add_group (lit "github") [e] KeepassXCDump.__init__)
  /\ field_text (lit "Title") (KeepassXCEntry.root e) = Some (lit "bob")
  /\ field_text (lit "UserName") (KeepassXCEntry.root e) = Some (lit "bob")
  /\ field_text (lit "Title") (KeepassXCEntry.root e) <> Some (lit "github")
  /\ field_text (lit "UserName") (KeepassXCEntry.root e) <> Some (lit "github").
Proof.
  cbv zeta. split; [vm_compute; reflexivity|].
  repeat split; vm_compute; discriminate.
Qed.

(** C5, amended: a top-level plain file that decodes adds one group, named
    after the file with the [.gpg] suffix removed, with exactly one entry;
    the entry's UserName is the value of the record's [login:] line (absent
    when there is none); its URL is the base name of the file when no line
    of the record starts with [url:]. *)
Theorem standalone_file_group
  (f : file) (contents : str) (rest : list node) (out : KeepassXCDump.t) :
  not_hidden (f_name f) = Ok true ->
  decrypt f = Ok contents ->
  let base := Py.removesuffix (f_name f) GPG in
  let r := parse_pass_format contents in
  exists e,
    main_loop (File f :: rest) out
    = main_loop rest (KeepassXCDump.add_group base [e] out)
    /\ field_text (lit "UserName") (KeepassXCEntry.root e) = p_username r
    /\ field_text (lit "URL") (KeepassXCEntry.root e)
       = Some (if existsb (fun line => Py.startswith line URL_)
                    (Py.split NL contents)
               then Py.or_ (p_url r) base
               else base).
Proof.
  intros Hv Hd. cbv zeta. eexists. split; [|split].
  - rewrite (@main_loop_File f contents rest out Hv Hd). cbv zeta. reflexivity.
  - rewrite entry_root. reflexivity.
  - rewrite entry_root.
    change (field_text (lit "URL") _)
      with (Some (Py.or_ (p_url (parse_pass_format contents))
                    (Py.removesuffix (f_name f) GPG))).
    destruct (existsb _ _) eqn:E; [reflexivity|].
    rewrite no_url_line by assumption. reflexivity.
Qed.

Lemma standalone_file_group_witness :
  let f := mkFile (lit "github.gpg") (mkCompleted 0 (ascii_bytes "hunter2")) in
  exists e,
    main_loop [File f] KeepassXCDump.__init__
    = main_loop [] (KeepassXCDump.add_group (lit "github") [e]
                      KeepassXCDump.__init__)
    /\ field_text (lit "UserName") (KeepassXCEntry.root e) = None
    /\ field_text (lit "URL") (KeepassXCEntry.root e) = Some (lit "github").
Proof.
  cbv zeta.
  apply (@standalone_file_group
           (mkFile (lit "github.gpg") (mkCompleted 0 (ascii_bytes "hunter2")))
           (lit "hunter2") [] KeepassXCDump.__init__); reflexivity.
Defined.

(** ** The main program *)

(** C10: [sys.argv] holds at least the name of the program, so the guard
    [len(sys.argv) < 1] is false and the run never ends through its
    [sys.exit(1)]: when it exits, the status is 0.  With the program name
    alone, reading [sys.argv[1]] raises [IndexError], which nothing
    catches. *)
Theorem argument_guard_never_fires
  (prog : str) (args : list str) (fs : str -> option node) :
  too_few_arguments (prog :: args) = false
  /\ match main (prog :: args) fs with
     | Exit code _ => code = 0%Z
     | Uncaught _ => True
     end
  /\ main [prog] fs = Uncaught IndexError.
Proof.
  split; [reflexivity|]. split; [|reflexivity].
  unfold main. cbn [too_few_arguments List.length Nat.ltb Nat.leb nth_error].
  destruct args as [|dir args]; cbn [nth_error]; [exact I|].
  destruct (rbind _ _); [reflexivity | exact I].
Qed.

(** ** Exit statuses *)

Lemma node_name_relabel (rc : file -> Z) (n : node) :
  node_name (relabel rc n) = node_name n.
Proof. destruct n; reflexivity. Qed.

Lemma find_files_relabel (rc : file -> Z) (n : node) :
  find_files (relabel rc n) = rmap (map (relabel_path rc)) (find_files n).
Proof.
  induction n as [name entries IH|f|name] using node_induction;
    [|reflexivity|reflexivity].
  cbn [relabel]. induction IH as [|x l Hx _ IHl]; [reflexivity|].
  cbn [map]. rewrite !find_files_cons, node_name_relabel.
  destruct (not_hidden (node_name x)) as [[|]|e]; cbn [rbind];
    [|exact IHl|reflexivity].
  destruct x as [xname xentries|xf|xname].
  - change (relabel rc (Dir xname xentries))
      with (Dir xname (map (relabel rc) xentries)) in *.
    cbv iota. rewrite Hx, IHl.
    destruct (find_files (Dir xname xentries)) as [a|e]; cbn [rmap rbind];
      [|reflexivity].
    destruct (find_files (Dir name l)) as [b|e]; cbn [rmap rbind];
      [|reflexivity].
    rewrite map_app. reflexivity.
  - cbn [relabel]. rewrite IHl.
    destruct (find_files (Dir name l)) as [b|e]; reflexivity.
  - cbn [relabel]. exact IHl.
Qed.

Lemma dir_entry_relabel (rc : file -> Z) (acc : list KeepassXCEntry.t)
  (p : Path) :
  dir_entry acc (relabel_path rc p) = dir_entry acc p.
Proof. reflexivity. Qed.

Lemma dir_entries_relabel (rc : file -> Z) (files : list Path)
  (acc : list KeepassXCEntry.t) :
  dir_entries (map (relabel_path rc) files) acc = dir_entries files acc.
Proof.
  revert acc. induction files as [|p files IH]; intros acc; [reflexivity|].
  cbn [map dir_entries]. rewrite dir_entry_relabel.
  destruct (dir_entry acc p); cbn [rbind]; [apply IH | reflexivity].
Qed.

Lemma main_loop_relabel (rc : file -> Z) (groups : list node)
  (out : KeepassXCDump.t) :
  main_loop (map (relabel rc) groups) out = main_loop groups out.
Proof.
  revert out. induction groups as [|group groups IH]; intros out;
    [reflexivity|].
  cbn [map main_loop]. rewrite node_name_relabel.
  destruct (not_hidden (node_name group)) as [[|]|e]; cbn [rbind];
    [|apply IH|reflexivity].
  destruct group as [gname entries|f|name].
  - change (relabel rc (Dir gname entries))
      with (Dir gname (map (relabel rc) entries)).
    cbv iota.
    change (Dir gname (map (relabel rc) entries))
      with (relabel rc (Dir gname entries)).
    rewrite find_files_relabel.
    destruct (find_files (Dir gname entries)) as [files|e];
      cbn [rmap rbind]; [|reflexivity].
    rewrite dir_entries_relabel.
    destruct (dir_entries files []) as [es|e]; cbn [rbind];
      [apply IH | reflexivity].
  - cbn [relabel]. rewrite decrypt_ignores_returncode.
    change (f_name (with_returncode rc f)) with (f_name f).
    destruct (decrypt f) as [contents|[]]; try reflexivity; apply IH.
  - cbn [relabel]. apply IH.
Qed.

(** C3 as stated fails: with a subprocess that exits with status 2 and
    writes nothing, the run still ends with status 0, and the document has
    an entry (with an empty password) for that file and an entry for the
    file after it. *)
Lemma failed_decryption_gives_an_entry :
  main [lit "pass-to-keepassxc.py"; lit "store"]
    (fun _ =>
       Some (Dir (lit "store")
               [Dir (lit "work")
                  [File (mkFile (lit "alice.gpg") (mkCompleted 2 []));
                   File (mkFile (lit "bob.gpg")
                           (mkCompleted 0 (ascii_bytes "hunter2")))]]))
  = Exit 0
      (document_xml
         [(lit "work",
           [mkArgs (Some (lit "alice")) (Some []) (Some (lit "work"))
              (Some (lit "alice")) (Some []) None;
            mkArgs (Some (lit "bob")) (Some (lit "hunter2"))
              (Some (lit "work")) (Some (lit "bob")) (Some []) None])]
         ++ [NL]).
Proof. vm_compute. reflexivity. Qed.

(** C3, amended: the exit status of the decryption subprocess is never
    looked at.  [decrypt] decodes the captured standard output whatever the
    status is, and a run ends in the same way, with the same document, on
    two stores that differ in the exit statuses only: a subprocess that
    fails is treated as one that succeeded with the same output. *)
Theorem exit_status_is_ignored
  (rc : file -> Z) (f : file) (argv : list str) (fs : str -> option node) :
  decrypt (with_returncode rc f) = decrypt f
  /\ main argv (fun p => option_map (relabel rc) (fs p)) = main argv fs.
Proof.
  split; [reflexivity|].
  unfold main. destruct (too_few_arguments argv); [reflexivity|].
  destruct (nth_error argv 1) as [dir|]; [|reflexivity].
  unfold iterdir. destruct (fs dir) as [[name entries|g|name]|];
    cbn [option_map relabel rbind]; try reflexivity.
  rewrite main_loop_relabel. reflexivity.
Qed.

(** * Further properties *)

(** ** Splitting and joining *)

Lemma join_cons (sep a : str) (b : str) (l : list str) :
  Py.join sep (a :: b :: l) = a ++ sep ++ Py.join sep (b :: l).
Proof. reflexivity. Qed.

(** Joining the pieces of a split with the separator gives the string
    back: [sep.join(s.split(sep)) == s]. *)
Lemma join_of_split (sep : char) (s : str) :
  Py.join [sep] (Py.split sep s) = s.
Proof.
  induction s as [|c s IH]; [reflexivity|].
  cbn [Py.split]. destruct (N.eqb_spec c sep) as [->|Hc].
  - destruct (Py.split sep s) as [|w ws] eqn:E;
      [exfalso; eapply split_not_nil; eassumption|].
    rewrite join_cons, IH. reflexivity.
  - destruct (Py.split sep s) as [|w ws] eqn:E;
      [exfalso; eapply split_not_nil; eassumption|].
    rewrite <- IH. destruct ws; reflexivity.
Qed.

(** No piece of a split contains the separator, and a string with [n]
    separators has [n + 1] pieces. *)
Lemma split_shape (sep : char) (s : str) :
  Forall (fun piece => ~ In sep piece) (Py.split sep s)
  /\ List.length (Py.split sep s)
     = S (List.length (filter (fun c => (c =? sep)%N) s)).
Proof.
  induction s as [|c s [IH1 IH2]]; cbn [Py.split filter].
  - split; [|reflexivity]. constructor; [simpl; tauto | constructor].
  - destruct (N.eqb_spec c sep) as [->|Hc].
    + split; [|cbn [List.length]; congruence].
      constructor; [simpl; tauto | assumption].
    + destruct (Py.split sep s) as [|w ws] eqn:E;
        [exfalso; eapply split_not_nil; eassumption|].
      split; [|exact IH2].
      inversion IH1 as [|? ? Hw Hws]; subst. constructor; [|assumption].
      simpl. intros [H|H]; [congruence | auto].
Qed.

(** ** Prefixes and suffixes *)

Lemma startswith_app (p s : str) : Py.startswith (p ++ s) p = true.
Proof.
  induction p as [|c p IH]; [destruct s; reflexivity|].
  cbn [app Py.startswith]. rewrite N.eqb_refl. exact IH.
Qed.

(** A string that starts with [p] is [p] followed by what [removeprefix]
    returns; one that does not is returned whole. *)
Lemma removeprefix_split (s p : str) :
  if Py.startswith s p then p ++ Py.removeprefix s p = s
  else Py.removeprefix s p = s.
Proof.
  unfold Py.removeprefix. destruct (Py.startswith s p) eqn:E; [|reflexivity].
  revert s E. induction p as [|c p IH]; intros s E; [reflexivity|].
  destruct s as [|d s]; [discriminate|]. cbn [Py.startswith] in E.
  apply andb_true_iff in E. destruct E as [E1 E2].
  apply N.eqb_eq in E1. subst d. cbn [app List.length skipn].
  rewrite IH by assumption. reflexivity.
Qed.

(** Removing a non-empty suffix that was appended gives the string back,
    and a name that does not end with the suffix is kept whole: only one
    trailing [.gpg] goes. *)
Theorem removesuffix_exact (s p : str) :
  Py.removesuffix (s ++ p) p = s
  /\ (if Py.endswith s p then True else Py.removesuffix s p = s).
Proof.
  split.
  - unfold Py.removesuffix. destruct p as [|c q] eqn:E.
    + apply app_nil_r.
    + rewrite <- E. unfold Py.endswith. rewrite rev_app_distr.
      rewrite startswith_app, length_app, Nat.add_sub.
      rewrite firstn_app, Nat.sub_diag, firstn_all. cbn [firstn].
      apply app_nil_r.
  - unfold Py.removesuffix. destruct (Py.endswith s p) eqn:E; [exact I|].
    destruct p; reflexivity.
Qed.

(** ** Stripping *)

Lemma lstrip_fixed (c : char) (s : str) :
  Py.isspace c = false -> Py.lstrip (c :: s) = c :: s.
Proof. intros H. cbn [Py.lstrip]. rewrite H. reflexivity. Qed.

(** What [lstrip] leaves is empty or starts with a character that is not
    white space. *)
Lemma lstrip_head (s : str) :
  match Py.lstrip s with
  | [] => True
  | c :: _ => Py.isspace c = false
  end.
Proof.
  induction s as [|c s IH]; [exact I|].
  cbn [Py.lstrip]. destruct (Py.isspace c) eqn:E; [exact IH | exact E].
Qed.

Lemma lstrip_idem (s : str) : Py.lstrip (Py.lstrip s) = Py.lstrip s.
Proof.
  pose proof (lstrip_head s) as H. destruct (Py.lstrip s) as [|c t];
    [reflexivity | apply lstrip_fixed; assumption].
Qed.

(** Stripping on the left keeps the last character of a string that ends
    with a character that is not white space. *)
Lemma lstrip_keeps_last (s : str) (c : char) :
  Py.isspace c = false -> exists t, Py.lstrip (s ++ [c]) = t ++ [c].
Proof.
  intros Hc. induction s as [|d s IH]; cbn [app Py.lstrip].
  - rewrite Hc. exists []. reflexivity.
  - destruct (Py.isspace d); [exact IH|]. exists (d :: s). reflexivity.
Qed.

Lemma rstrip_keeps_head (c : char) (s : str) :
  Py.isspace c = false -> exists t, Py.rstrip (c :: s) = c :: t.
Proof.
  intros Hc. unfold Py.rstrip. cbn [rev].
  destruct (lstrip_keeps_last (rev s) c Hc) as (t & ->).
  rewrite rev_app_distr. exists (rev t). reflexivity.
Qed.

Lemma rstrip_idem (s : str) : Py.rstrip (Py.rstrip s) = Py.rstrip s.
Proof.
  unfold Py.rstrip. rewrite rev_involutive, lstrip_idem. reflexivity.
Qed.

(** [strip] leaves no white space at either end, so stripping again
    changes nothing on either side. *)
Lemma strip_fixed (s : str) :
  Py.lstrip (Py.strip s) = Py.strip s
  /\ Py.rstrip (Py.strip s) = Py.strip s
  /\ Py.strip (Py.strip s) = Py.strip s.
Proof.
  assert (L : Py.lstrip (Py.strip s) = Py.strip s).
  { unfold Py.strip. pose proof (lstrip_head s) as H.
    destruct (Py.lstrip s) as [|c t]; [reflexivity|].
    destruct (rstrip_keeps_head c t H) as (u & ->).
    apply lstrip_fixed. assumption. }
  assert (R : Py.rstrip (Py.strip s) = Py.strip s).
  { unfold Py.strip. apply rstrip_idem. }
  split; [exact L|]. split; [exact R|].
  unfold Py.strip at 1. rewrite L. exact R.
Qed.

(** ** More on the record parser *)

Lemma find_remove (P : str -> bool) (x : str) (l : list str) :
  P x = false -> find P (Py.remove x l) = find P l.
Proof.
  intros Hx. induction l as [|y l IH]; [reflexivity|].
  cbn [Py.remove find]. destruct (Py.eqb y x) eqn:E.
  - apply eqb_eq in E. subst y. rewrite Hx. reflexivity.
  - cbn [find]. rewrite IH. reflexivity.
Qed.

Lemma startswith_head (x : str) (c : char) (m : str) :
  Py.startswith x (c :: m) = true -> exists x', x = c :: x'.
Proof.
  destruct x as [|d x]; cbn [Py.startswith]; [discriminate|].
  intros H. apply andb_true_iff in H. destruct H as [H _].
  apply N.eqb_eq in H. subst d. exists x. reflexivity.
Qed.

(** A line carries at most one of the three markers. *)
Lemma otpauth_not_login (x : str) :
  Py.startswith x OTPAUTH = true -> Py.startswith x LOGIN = false.
Proof.
  intros H. apply startswith_head in H. destruct H as (x' & ->). reflexivity.
Qed.

Lemma otpauth_not_url (x : str) :
  Py.startswith x OTPAUTH = true -> Py.startswith x URL_ = false.
Proof.
  intros H. apply startswith_head in H. destruct H as (x' & ->). reflexivity.
Qed.

Lemma login_not_url (x : str) :
  Py.startswith x LOGIN = true -> Py.startswith x URL_ = false.
Proof.
  intros H. apply startswith_head in H. destruct H as (x' & ->). reflexivity.
Qed.

Lemma first_with_after_remove (m m' : str) (lines : list str) :
  (forall x, Py.startswith x m = true -> Py.startswith x m' = false) ->
  first_with m'
    match first_with m lines with
    | Some t => Py.remove t lines
    | None => lines
    end
  = first_with m' lines.
Proof.
  intros Hex. destruct (first_with m lines) as [t|] eqn:Et; [|reflexivity].
  apply remove_found in Et. destruct Et as [_ Et].
  unfold first_with. apply find_remove. apply Hex. assumption.
Qed.

Lemma scans_are_independent (src : str) :
  let lines := Py.split NL src in
  let r := parse_pass_format src in
  p_totp r = first_with OTPAUTH lines
  /\ p_username r
     = option_map (fun u => Py.strip (Py.removeprefix u LOGIN))
         (first_with LOGIN lines)
  /\ p_url r
     = option_map (fun u => Py.strip (Py.removeprefix u URL_))
         (first_with URL_ lines).
Proof.
  cbv zeta. unfold parse_pass_format. cbn [p_totp p_username p_url].
  set (lines := Py.split NL src).
  split; [reflexivity|].
  rewrite (first_with_after_remove OTPAUTH LOGIN lines otpauth_not_login).
  split; [reflexivity|]. f_equal.
  set (lines' := match first_with OTPAUTH lines with
                 | Some t => Py.remove t lines
                 | None => lines
                 end).
  assert (E : first_with LOGIN lines = first_with LOGIN lines').
  { symmetry. apply first_with_after_remove. exact otpauth_not_login. }
  rewrite E.
  rewrite (first_with_after_remove LOGIN URL_ lines' login_not_url).
  apply first_with_after_remove. exact otpauth_not_url.
Qed.

(** Each of the three values comes from the first line, among all the
    lines of the text, that starts with its marker: the lines the earlier
    scans removed play no part in the later scans. *)
Theorem marker_values (src : str) :
  let lines := Py.split NL src in
  let r := parse_pass_format src in
  p_totp r = first_with OTPAUTH lines
  /\ p_username r
     = option_map (fun u => Py.strip (Py.removeprefix u LOGIN))
         (first_with LOGIN lines)
  /\ p_url r
     = option_map (fun u => Py.strip (Py.removeprefix u URL_))
         (first_with URL_ lines).
Proof. exact (scans_are_independent src). Qed.

(** The user name and the url the parser returns have no white space at
    either end. *)
Theorem parsed_values_are_stripped (src : str) :
  let r := parse_pass_format src in
  match p_username r with
  | Some u => Py.lstrip u = u /\ Py.rstrip u = u
  | None => True
  end
  /\ match p_url r with
     | Some u => Py.lstrip u = u /\ Py.rstrip u = u
     | None => True
     end.
Proof.
  cbv zeta. destruct (scans_are_independent src) as (_ & -> & ->).
  split.
  - destruct (first_with LOGIN (Py.split NL src)); [|exact I].
    cbn [option_map]. split; apply strip_fixed.
  - destruct (first_with URL_ (Py.split NL src)); [|exact I].
    cbn [option_map]. split; apply strip_fixed.
Qed.

Lemma find_is_some (P : str -> bool) (l : list str) :
  is_some (find P l) = existsb P l.
Proof.
  induction l as [|x l IH]; [reflexivity|].
  cbn [find existsb]. destruct (P x); [reflexivity | exact IH].
Qed.

(** A value is present exactly when some line of the text starts with its
    marker, the first line included. *)
Theorem value_present_iff_marker (src : str) :
  let lines := Py.split NL src in
  let r := parse_pass_format src in
  is_some (p_totp r) = existsb (fun x => Py.startswith x OTPAUTH) lines
  /\ is_some (p_username r) = existsb (fun x => Py.startswith x LOGIN) lines
  /\ is_some (p_url r) = existsb (fun x => Py.startswith x URL_) lines.
Proof.
  cbv zeta. destruct (scans_are_independent src) as (-> & -> & ->).
  unfold first_with. rewrite <- !find_is_some.
  repeat split; destruct (find _ _); reflexivity.
Qed.

Lemma found_line (m : str) (lines : list str) (x : str) :
  first_with m lines = Some x ->
  In x lines /\ x = m ++ Py.removeprefix x m.
Proof.
  intros H. apply remove_found in H. destruct H as [Hin Hm].
  split; [assumption|]. pose proof (removeprefix_split x m) as R.
  rewrite Hm in R. symmetry. exact R.
Qed.

(** The one-time-password value is a whole line of the text, marker
    included; the user name and the url are what follows the marker on a
    line of the text, stripped. *)
Theorem values_come_from_lines (src : str) :
  let lines := Py.split NL src in
  let r := parse_pass_format src in
  match p_totp r with
  | Some t => In t lines /\ exists rest, t = OTPAUTH ++ rest
  | None => True
  end
  /\ match p_username r with
     | Some u => exists rest, In (LOGIN ++ rest) lines /\ u = Py.strip rest
     | None => True
     end
  /\ match p_url r with
     | Some u => exists rest, In (URL_ ++ rest) lines /\ u = Py.strip rest
     | None => True
     end.
Proof.
  cbv zeta. destruct (scans_are_independent src) as (-> & -> & ->).
  repeat split.
  - destruct (first_with OTPAUTH _) as [t|] eqn:E; [|exact I].
    apply found_line in E. destruct E as [Hin Ht].
    split; [assumption|]. eexists. exact Ht.
  - destruct (first_with LOGIN _) as [u|] eqn:E; [|exact I].
    apply found_line in E. destruct E as [Hin Hu]. cbn [option_map].
    exists (Py.removeprefix u LOGIN). rewrite <- Hu. auto.
  - destruct (first_with URL_ _) as [u|] eqn:E; [|exact I].
    apply found_line in E. destruct E as [Hin Hu]. cbn [option_map].
    exists (Py.removeprefix u URL_). rewrite <- Hu. auto.
Qed.

(** A text none of whose lines carries a marker is kept whole: no value is
    extracted, and the text is the password alone, or the password, a
    newline and the notes. *)
Theorem plain_text_is_kept (src : str) :
  forallb (fun x => negb (is_marker_line x)) (Py.split NL src) = true ->
  let r := parse_pass_format src in
  p_totp r = None /\ p_username r = None /\ p_url r = None
  /\ (src = p_password r /\ p_notes r = []
      \/ src = p_password r ++ NL :: p_notes r).
Proof.
  intros H. cbv zeta.
  assert (Hm : forall m,
             (forall x, is_marker_line x = false ->
                        Py.startswith x m = false) ->
             first_with m (Py.split NL src) = None).
  { intros m Hx. apply first_with_none. apply forallb_forall.
    intros x Hin. rewrite forallb_forall in H. specialize (H x Hin).
    apply negb_true_iff in H. rewrite (Hx x H). reflexivity. }
  assert (H1 : first_with OTPAUTH (Py.split NL src) = None).
  { apply Hm. unfold is_marker_line. intros x Hx.
    rewrite !orb_false_iff in Hx. tauto. }
  assert (H2 : first_with LOGIN (Py.split NL src) = None).
  { apply Hm. unfold is_marker_line. intros x Hx.
    rewrite !orb_false_iff in Hx. tauto. }
  assert (H3 : first_with URL_ (Py.split NL src) = None).
  { apply Hm. unfold is_marker_line. intros x Hx.
    rewrite !orb_false_iff in Hx. tauto. }
  unfold parse_pass_format. rewrite H1, H2, H3.
  cbn [p_totp p_username p_url p_password p_notes option_map].
  repeat (split; [reflexivity|]).
  pose proof (join_of_split NL src) as J.
  destruct (Py.split NL src) as [|a [|b l]]; cbn [hd tl].
  - left. split; [symmetry; exact J | reflexivity].
  - left. split; [symmetry; exact J | reflexivity].
  - right. rewrite join_cons in J. symmetry. exact J.
Qed.

Lemma plain_text_is_kept_witness :
  let r := parse_pass_format (lit "p@ss" ++ NL :: lit "some note") in
  p_totp r = None /\ p_username r = None /\ p_url r = None
  /\ (lit "p@ss" ++ NL :: lit "some note" = p_password r /\ p_notes r = []
      \/ lit "p@ss" ++ NL :: lit "some note"
         = p_password r ++ NL :: p_notes r).
Proof.
  apply (plain_text_is_kept (lit "p@ss" ++ NL :: lit "some note")).
  reflexivity.
Defined.

(** ** More on escaping *)

Lemma esc3_head (c : char) :
  exists d rest, esc3 c = d :: rest
    /\ (d = AMP <-> (c = AMP \/ c = LT \/ c = GT)).
Proof.
  unfold esc3.
  destruct (N.eqb_spec c AMP) as [->|H1].
  { eexists _, _. split; [reflexivity|]. tauto. }
  destruct (N.eqb_spec c LT) as [->|H2].
  { eexists _, _. split; [reflexivity|]. tauto. }
  destruct (N.eqb_spec c GT) as [->|H3].
  { eexists _, _. split; [reflexivity|]. tauto. }
  exists c, []. split; [reflexivity|]. tauto.
Qed.

Lemma esc3_clean (c : char) : ~ In LT (esc3 c) /\ ~ In GT (esc3 c).
Proof.
  unfold esc3.
  destruct (N.eqb_spec c AMP) as [->|H1].
  { split; vm_compute; intuition discriminate. }
  destruct (N.eqb_spec c LT) as [->|H2].
  { split; vm_compute; intuition discriminate. }
  destruct (N.eqb_spec c GT) as [->|H3].
  { split; vm_compute; intuition discriminate. }
  split; simpl; intros [E|[]]; congruence.
Qed.

(** Escaped text contains neither a less-than nor a greater-than sign: a
    name or a value cannot open or close a tag in the document. *)
Theorem escaped_text_has_no_angle_bracket (s : str) :
  ~ In LT (ET._escape_cdata s) /\ ~ In GT (ET._escape_cdata s).
Proof.
  rewrite escape_cdata_charwise.
  induction s as [|c s [IH1 IH2]]; [simpl; tauto|].
  cbn [flat_map]. destruct (esc3_clean c) as [C1 C2].
  split; intros H; apply in_app_or in H; tauto.
Qed.

Lemma esc3_step (c1 c2 : char) (t1 t2 : str) :
  esc3 c1 ++ t1 = esc3 c2 ++ t2 -> c1 = c2 /\ t1 = t2.
Proof.
  unfold esc3, AMP, LT, GT.
  destruct (N.eqb_spec c1 38) as [->|A1];
    [|destruct (N.eqb_spec c1 60) as [->|L1];
      [|destruct (N.eqb_spec c1 62) as [->|G1]]];
  (destruct (N.eqb_spec c2 38) as [->|A2];
    [|destruct (N.eqb_spec c2 60) as [->|L2];
      [|destruct (N.eqb_spec c2 62) as [->|G2]]]);
  cbn [app lit map list_ascii_of_string N_of_ascii N_of_digits N.add N.mul];
  intros H; try discriminate H; injection H; intros; subst;
    try (exfalso; congruence); auto.
Qed.

(** Escaping loses nothing: two texts with the same escaped form are the
    same text. *)
Theorem escaping_is_injective (s1 s2 : str) :
  ET._escape_cdata s1 = ET._escape_cdata s2 -> s1 = s2.
Proof.
  rewrite !escape_cdata_charwise. revert s2.
  induction s1 as [|c1 s1 IH]; intros [|c2 s2]; cbn [flat_map]; intros H.
  - reflexivity.
  - destruct (esc3_head c2) as (d & rest & E & _). rewrite E in H.
    discriminate.
  - destruct (esc3_head c1) as (d & rest & E & _). rewrite E in H.
    discriminate.
  - apply esc3_step in H. destruct H as [-> H]. f_equal. apply IH. exact H.
Qed.

Lemma escaping_is_injective_witness :
  lit "a<b&c" = lit "a<b&c".
Proof.
  apply (escaping_is_injective (lit "a<b&c") (lit "a<b&c")). reflexivity.
Defined.

(** ** More on the builders *)

Lemma string_keys_app tg a x cs k v :
  string_keys (Elem tg a x (cs ++ [String_ k v]))
  = string_keys (Elem tg a x cs) ++ [Some k].
Proof.
  unfold string_keys, findall. cbn [children].
  rewrite filter_app, map_app. reflexivity.
Qed.

(** [add_string_field] only appends: whatever the element holds, a field
    with the same key included, its tag, attributes, text and children stay
    as they are and one [String] element with the key and the value comes
    last. *)
Theorem add_string_field_appends (k : str) (v : option str) tg a x cs :
  let e := ET.exec (KeepassXCEntry.add_string_field k v) (Elem tg a x cs) in
  e = Elem tg a x (cs ++ [String_ k v])
  /\ string_keys e = string_keys (Elem tg a x cs) ++ [Some k].
Proof.
  cbv zeta. rewrite add_string_field_exec. split; [reflexivity|].
  apply string_keys_app.
Qed.

Lemma group_root (name : str) :
  KeepassXCGroup.root (KeepassXCGroup.__init__ name) = Group_ name [].
Proof.
  unfold KeepassXCGroup.__init__, ET.Element. cbn [KeepassXCGroup.root].
  et_run. reflexivity.
Qed.

(** [KeepassXCGroup(name)] builds the element [add_group(name, [])]
    appends to the root group: a [Group] holding one [Name] with the name
    as its text. *)
Theorem group_object_is_empty_group (name : str) (cs : list Element) :
  KeepassXCDump.add_group name [] (Dump_ cs)
  = Dump_ (cs ++ [KeepassXCGroup.root (KeepassXCGroup.__init__ name)])
  /\ ET.tostring (KeepassXCGroup.root (KeepassXCGroup.__init__ name))
     = lit "<Group>" ++ leaf_xml (lit "Name") [] name ++ lit "</Group>".
Proof.
  rewrite group_root. split.
  - apply (add_group_Dump name [] cs).
  - unfold ET.tostring.
    change (Group_ name [])
      with (Group_ (fst (name, @nil entry_args))
              (map KeepassXCEntry.root
                 (map build (snd (name, @nil entry_args))))).
    rewrite serialize_group. unfold group_xml. cbn [fst snd flat_map app].
    reflexivity.
Qed.

(** ** More on the traversal *)

Lemma find_files_skip (dname : str) (x : node) (l : list node) :
  ignored x = true ->
  find_files (Dir dname (x :: l)) = find_files (Dir dname l).
Proof.
  unfold ignored. intros H. rewrite find_files_cons.
  destruct (not_hidden (node_name x)) as [[|]|e]; cbn [rbind];
    [|reflexivity|discriminate].
  destruct x; [discriminate | discriminate | reflexivity].
Qed.

Lemma find_files_same_tail (dname : str) (x : node) (l l' : list node) :
  find_files (Dir dname l) = find_files (Dir dname l') ->
  find_files (Dir dname (x :: l)) = find_files (Dir dname (x :: l')).
Proof. intros H. rewrite !find_files_cons, H. reflexivity. Qed.

Lemma main_loop_skip (x : node) (l : list node) (out : KeepassXCDump.t) :
  ignored x = true -> main_loop (x :: l) out = main_loop l out.
Proof.
  unfold ignored. intros H. cbn [main_loop].
  destruct (not_hidden (node_name x)) as [[|]|e]; cbn [rbind];
    [|reflexivity|discriminate].
  destruct x; [discriminate | discriminate | reflexivity].
Qed.

Lemma main_loop_same_tail (x : node) (l l' : list node) :
  (forall out, main_loop l out = main_loop l' out) ->
  forall out, main_loop (x :: l) out = main_loop (x :: l') out.
Proof.
  intros H out. cbn [main_loop].
  destruct (not_hidden (node_name x)) as [[|]|e]; cbn [rbind];
    [|apply H|reflexivity].
  destruct x as [gname entries|f|name].
  - destruct (find_files (Dir gname entries)); cbn [rbind]; [|reflexivity].
    destruct (dir_entries a []); cbn [rbind]; [apply H | reflexivity].
  - destruct (decrypt f) as [contents|[]]; try reflexivity; apply H.
  - apply H.
Qed.

(** A child whose name starts with a dot, and a child that is neither a
    directory nor a regular file, count for nothing, at the top of the store
    and at every level below: the files found and the document built are
    those of the store without it. *)
Theorem ignored_children_count_for_nothing
  (x : node) (dname : str) (before after : list node)
  (out : KeepassXCDump.t) :
  ignored x = true ->
  find_files (Dir dname (before ++ x :: after))
  = find_files (Dir dname (before ++ after))
  /\ main_loop (before ++ x :: after) out = main_loop (before ++ after) out.
Proof.
  intros H. split.
  - induction before as [|y before IH]; cbn [app].
    + apply find_files_skip. assumption.
    + apply find_files_same_tail. exact IH.
  - revert out. induction before as [|y before IH]; cbn [app].
    + intros out. apply main_loop_skip. assumption.
    + apply main_loop_same_tail. exact IH.
Qed.

Lemma ignored_children_count_for_nothing_witness :
  let alice := File (mkFile (lit "alice.gpg")
                       (mkCompleted 0 (ascii_bytes "p@ss"))) in
  let gitdir := Dir (lit ".git") [File (mkFile (lit "config")
                                          (mkCompleted 2 []))] in
  find_files (Dir (lit "work") ([alice] ++ gitdir :: []))
  = find_files (Dir (lit "work") ([alice] ++ []))
  /\ main_loop ([alice] ++ gitdir :: []) KeepassXCDump.__init__
     = main_loop ([alice] ++ []) KeepassXCDump.__init__.
Proof.
  cbv zeta.
  apply (ignored_children_count_for_nothing
           (Dir (lit ".git") [File (mkFile (lit "config")
                                      (mkCompleted 2 []))])
           (lit "work")
           [File (mkFile (lit "alice.gpg")
                    (mkCompleted 0 (ascii_bytes "p@ss")))]
           [] KeepassXCDump.__init__).
  reflexivity.
Defined.

Lemma reaches_weaken (dname : str) (x : node) (l : list node)
  (parent : str) (f : file) :
  reaches (Dir dname l) parent f -> reaches (Dir dname (x :: l)) parent f.
Proof.
  intros H. inversion H; subst.
  - apply reaches_here; [right; assumption | assumption].
  - eapply reaches_below; [right; eassumption | assumption | assumption].
Qed.

Lemma reaches_tail (dname : str) (x : node) (l : list node)
  (parent : str) (f : file) :
  reaches (Dir dname (x :: l)) parent f ->
  (x = File f /\ parent = dname /\ not_hidden (f_name f) = Ok true)
  \/ (exists sub subentries,
         x = Dir sub subentries /\ not_hidden sub = Ok true
         /\ reaches x parent f)
  \/ reaches (Dir dname l) parent f.
Proof.
  intros H. inversion H; subst.
  - match goal with Hin : In _ (_ :: _) |- _ => destruct Hin as [->|Hin] end.
    + left. auto.
    + right. right. apply reaches_here; assumption.
  - match goal with Hin : In _ (_ :: _) |- _ => destruct Hin as [->|Hin] end.
    + right. left. eauto.
    + right. right. eapply reaches_below; eassumption.
Qed.

Lemma reaches_nil (dname parent : str) (f : file) :
  ~ reaches (Dir dname []) parent f.
Proof. intros H. inversion H; subst; simpl in *; contradiction. Qed.

Lemma find_files_reaches (n : node) :
  forall files parent f,
    find_files n = Ok files ->
    (In (mkPath parent f) files <-> reaches n parent f).
Proof.
  induction n as [dname entries IH|g|name] using node_induction;
    [|discriminate|discriminate].
  induction IH as [|x l Hx _ IHl]; intros files parent f Hfiles.
  - rewrite find_files_nil in Hfiles. injection Hfiles as <-.
    split; [intros [] | intros H; exfalso; eapply reaches_nil; exact H].
  - rewrite find_files_cons in Hfiles.
    destruct (not_hidden (node_name x)) as [[|]|e] eqn:Ev;
      cbn [rbind] in Hfiles; [| |discriminate].
    + destruct x as [sub subentries|f0|sname].
      * destruct (find_files (Dir sub subentries)) as [a|e] eqn:Ea;
          cbn [rbind] in Hfiles; [|discriminate].
        destruct (find_files (Dir dname l)) as [b|e] eqn:Eb;
          cbn [rbind] in Hfiles; [|discriminate].
        injection Hfiles as <-. rewrite in_app_iff.
        rewrite (Hx a parent f eq_refl), (IHl b parent f eq_refl).
        split.
        -- intros [H|H].
           ++ eapply reaches_below; [left; reflexivity | exact Ev | exact H].
           ++ apply reaches_weaken. exact H.
        -- intros H. apply reaches_tail in H.
           destruct H as [(E & _)|[(s' & se' & E & _ & H)|H]];
             [discriminate | left; exact H | right; exact H].
      * destruct (find_files (Dir dname l)) as [b|e] eqn:Eb;
          cbn [rbind] in Hfiles; [|discriminate].
        injection Hfiles as <-. cbn [In].
        rewrite (IHl b parent f eq_refl). split.
        -- intros [H|H].
           ++ injection H as <- <-.
              apply reaches_here; [left; reflexivity | exact Ev].
           ++ apply reaches_weaken. exact H.
        -- intros H. apply reaches_tail in H.
           destruct H as [(E & -> & _)|[(s' & se' & E & _)|H]];
             [injection E as <-; left; reflexivity | discriminate
             | right; exact H].
      * rewrite (IHl files parent f Hfiles). split.
        -- apply reaches_weaken.
        -- intros H. apply reaches_tail in H.
           destruct H as [(E & _)|[(s' & se' & E & _)|H]];
             [discriminate | discriminate | exact H].
    + rewrite (IHl files parent f Hfiles). split.
      * apply reaches_weaken.
      * intros H. apply reaches_tail in H.
        destruct H as [(E & _ & Hv)|[(s' & se' & E & Hv & _)|H]];
          [subst x; cbn [node_name] in Ev; congruence
          | subst x; cbn [node_name] in Ev; congruence | exact H].
Qed.

(** [find_files] yields exactly the regular files that can be reached from
    the directory through directories whose names do not start with a dot
    and whose own name does not start with a dot, each with the name of the
    directory it lies in as its parent name. *)
Theorem find_files_yields_reachable_files
  (dname : str) (entries : list node) (files : list Path)
  (parent : str) (f : file) :
  find_files (Dir dname entries) = Ok files ->
  (In (mkPath parent f) files <-> reaches (Dir dname entries) parent f).
Proof. apply find_files_reaches. Qed.

Lemma find_files_yields_reachable_files_witness :
  let key := mkFile (lit "key.gpg") (mkCompleted 0 (ascii_bytes "k")) in
  In (mkPath (lit "ssh") key)
     [mkPath (lit "ssh") key]
  <-> reaches (Dir (lit "work") [Dir (lit "ssh") [File key]]) (lit "ssh") key.
Proof.
  cbv zeta.
  apply (find_files_yields_reachable_files (lit "work")
           [Dir (lit "ssh")
              [File (mkFile (lit "key.gpg")
                       (mkCompleted 0 (ascii_bytes "k")))]]
           [mkPath (lit "ssh")
              (mkFile (lit "key.gpg") (mkCompleted 0 (ascii_bytes "k")))]).
  reflexivity.
Defined.

(** ** What a run can raise *)

Lemma find_files_raises (n : node) :
  match n with
  | Dir _ _ =>
      match find_files n with
      | Raise e => e = IndexError
      | Ok _ => True
      end
  | File _ | Special _ => True
  end.
Proof.
  induction n as [dname entries IH|g|name] using node_induction;
    [|exact I|exact I].
  induction IH as [|x l Hx _ IHl]; [exact I|].
  rewrite find_files_cons.
  destruct x as [sub subentries|f0|sname]; cbn [node_name not_hidden].
  - destruct sub as [|c sub]; cbn [not_hidden rbind]; [reflexivity|].
    destruct (negb (c =? DOT)%N); [|exact IHl].
    destruct (find_files (Dir (c :: sub) subentries)); cbn [rbind];
      [|exact Hx].
    destruct (find_files (Dir dname l)); cbn [rbind]; [exact I | exact IHl].
  - destruct (f_name f0) as [|c fname]; cbn [not_hidden rbind];
      [reflexivity|].
    destruct (negb (c =? DOT)%N); [|exact IHl].
    destruct (find_files (Dir dname l)); cbn [rbind]; [exact I | exact IHl].
  - destruct sname as [|c sname]; cbn [not_hidden rbind]; [reflexivity|].
    destruct (negb (c =? DOT)%N); exact IHl.
Qed.

Lemma not_hidden_raises (name : str) :
  match not_hidden name with
  | Raise e => e = IndexError
  | Ok _ => True
  end.
Proof. destruct name; [reflexivity | exact I]. Qed.

Lemma main_loop_raises (groups : list node) (out : KeepassXCDump.t) :
  match main_loop groups out with
  | Raise e => e = IndexError
  | Ok _ => True
  end.
Proof.
  revert out. induction groups as [|x l IH]; intros out; [exact I|].
  cbn [main_loop]. pose proof (not_hidden_raises (node_name x)) as Hn.
  destruct (not_hidden (node_name x)) as [[|]|e]; cbn [rbind];
    [|apply IH|exact Hn].
  destruct x as [gname entries|f|name].
  - pose proof (find_files_raises (Dir gname entries)) as Hf. cbv beta iota in Hf.
    destruct (find_files (Dir gname entries)) as [files|e]; cbn [rbind];
      [|exact Hf].
    destruct (dir_entries_total files []) as (es & ->). cbn [rbind].
    apply IH.
  - destruct (decrypt_cases f) as [(s & _ & ->)|(_ & ->)]; apply IH.
  - apply IH.
Qed.

(** A run never ends with an uncaught [UnicodeDecodeError]: both loops
    catch it.  What a run can end with is [sys.exit(1)] when [sys.argv] is
    empty, an exit with status 0 after printing a text that ends with a
    newline, or an uncaught [IndexError], [FileNotFoundError] or
    [NotADirectoryError]. *)
Theorem decode_errors_never_escape
  (argv : list str) (fs : str -> option node) :
  match main argv fs with
  | Exit code printed =>
      (code = 1%Z /\ printed = [] /\ argv = [])
      \/ (code = 0%Z /\ exists doc, printed = doc ++ [NL])
  | Uncaught e => e <> UnicodeDecodeError
  end.
Proof.
  unfold main. destruct argv as [|prog args].
  { left. auto. }
  cbn [too_few_arguments List.length Nat.ltb Nat.leb nth_error].
  destruct args as [|dir args]; cbn [nth_error]; [discriminate|].
  unfold iterdir. destruct (fs dir) as [[name entries|g|name]|];
    cbn [rbind]; try discriminate.
  pose proof (main_loop_raises entries KeepassXCDump.__init__) as H.
  destruct (main_loop entries KeepassXCDump.__init__) as [out|e].
  - right. split; [reflexivity|]. eexists. reflexivity.
  - subst e. discriminate.
Qed.







(** ** What a run adds to the document *)

Lemma add_groups_cons (g : str * list KeepassXCEntry.t)
  (gs : list (str * list KeepassXCEntry.t)) (out : KeepassXCDump.t) :
  add_groups (g :: gs) out
  = add_groups gs (KeepassXCDump.add_group (fst g) (snd g) out).
Proof. reflexivity. Qed.


(** ** Entries of a directory *)

(** In the directory branch an entry takes its Title and its UserName from
    the name of the file with one trailing [.gpg] removed, whatever
    [login:] line the record holds; its Password is the first line, its URL
    the record's url when it has a non-empty one and the name of the
    directory the file lies in otherwise; Notes and otp are the parser's. *)
Theorem directory_entry_fields
  (acc : list KeepassXCEntry.t) (p : Path) (contents : str) :
  decrypt (path_file p) = Ok contents ->
  let base := Py.removesuffix (f_name (path_file p)) GPG in
  let r := parse_pass_format contents in
  exists e,
    dir_entry acc p = Ok (acc ++ [e])
    /\ map (fun k => field_text k (KeepassXCEntry.root e)) six_keys
       = [Some (p_notes r); Some base; Some (p_password r);
          Some (Py.or_ (p_url r) (parent_name p)); Some base; p_totp r].
Proof.
  intros Hd. cbv zeta. unfold dir_entry. rewrite Hd.
  eexists. split; [reflexivity|]. rewrite entry_root. reflexivity.
Qed.

Lemma directory_entry_fields_witness :
  let alice := mkPath (lit "work")
                 (mkFile (lit "alice.gpg")
                    (mkCompleted 0 (ascii_bytes "p@ss"))) in
  let r := parse_pass_format (lit "p@ss") in
  exists e,
    dir_entry [] alice = Ok ([] ++ [e])
    /\ map (fun k => field_text k (KeepassXCEntry.root e)) six_keys
       = [Some (p_notes r);
          Some (Py.removesuffix (f_name (path_file alice)) GPG);
          Some (p_password r);
          Some (Py.or_ (p_url r) (parent_name alice));
          Some (Py.removesuffix (f_name (path_file alice)) GPG); p_totp r].
Proof.
  cbv zeta.
  apply (directory_entry_fields []
           (mkPath (lit "work")
              (mkFile (lit "alice.gpg") (mkCompleted 0 (ascii_bytes "p@ss"))))
           (lit "p@ss")).
  reflexivity.
Defined.

(** ** Decoding *)

Lemma decode_ascii (bs : list byte) :
  forallb (fun b => (Byte.to_N b <? 128)%N) bs = true ->
  Utf8.decode bs = Some (map Byte.to_N bs).
Proof.
  induction bs as [|b bs IH]; [reflexivity|].
  cbn [forallb]. intros H. apply andb_true_iff in H. destruct H as [Hb Hbs].
  cbn [Utf8.decode map]. rewrite Hb, (IH Hbs). reflexivity.
Qed.

(** When the subprocess writes ASCII bytes only, [decrypt] returns them as
    the text, code point for byte, whatever the exit status is. *)
Theorem decrypt_ascii (f : file) :
  forallb (fun b => (Byte.to_N b <? 128)%N) (stdout (f_gpg f)) = true ->
  decrypt f = Ok (map Byte.to_N (stdout (f_gpg f))).
Proof.
  intros H. unfold decrypt. rewrite (decode_ascii _ H). reflexivity.
Qed.

Lemma decrypt_ascii_witness :
  decrypt (mkFile (lit "alice.gpg") (mkCompleted 2 (ascii_bytes "p@ss")))
  = Ok (map Byte.to_N
          (stdout (f_gpg (mkFile (lit "alice.gpg")
                            (mkCompleted 2 (ascii_bytes "p@ss")))))).
Proof.
  apply (decrypt_ascii
           (mkFile (lit "alice.gpg") (mkCompleted 2 (ascii_bytes "p@ss")))).
  reflexivity.
Defined.







(** ** Lines *)

(** The lines the parser works on are the text cut at its newlines: none
    holds a newline, there is one more line than there are newlines, and
    joined with newlines they give the text back. *)
Theorem lines_round_trip (src : str) :
  let lines := Py.split NL src in
  Py.join [NL] lines = src
  /\ Forall (fun line => ~ In NL line) lines
  /\ List.length lines
     = S (List.length (filter (fun c => (c =? NL)%N) src)).
Proof.
  cbv zeta. split; [apply join_of_split | apply split_shape].
Qed.
